(** * The anisotropic Matern kernel of gptools (gptools/kernel/matern.py)

    A shallow embedding of [MaternKernel]: the kernel value, the derivative of
    the outer form (general Leibniz rule), the derivative of the inner
    argument (Faa di Bruno's formula over set partitions) and the handling of
    the rows at the origin.

    Numbers are IEEE 754 binary64 values ([PrimFloat.float], what a numpy
    [float64] holds).  One-dimensional arrays are lists, boolean index arrays
    are lists of booleans, a matrix is its list of rows together with its
    number of columns.  A method of the class is a computation over the
    object [self]: it may read [self.params], raise an exception or emit a
    warning. *)

From Stdlib Require Import String List Bool Arith ZArith Lia.
From Stdlib Require Import Uint63 Floats.
Import ListNotations.

Set Implicit Arguments.

(** ** Integers used as floats *)

(** A Python [int] that meets a float in an arithmetic expression is
    converted to a float first.  The integers here are derivative orders and
    loop counters; the conversion is exact below [2^53] and is the machine
    conversion of a 63-bit integer. *)
Definition float_of_Z (z : Z) : float :=
  match z with
  | Z0 => 0%float
  | Zpos _ => of_uint63 (Uint63.of_Z z)
  | Zneg p => (- of_uint63 (Uint63.of_Z (Zpos p)))%float
  end.

Definition float_of_nat (n : nat) : float := float_of_Z (Z.of_nat n).

(** ** numpy arrays *)

Module Ndarray.

(** [(M, N)] matrix: [shape[0]] is the number of rows, [shape[1]] is
    [ncols]. *)
Record Matrix := mkMatrix { ncols : nat; rows : list (list float) }.

Definition nrows (t : Matrix) : nat := length (rows t).

Definition zeros (m : nat) : list float := repeat 0%float m.
Definition ones (m : nat) : list float := repeat 1%float m.
Definition zeros_like (a : list float) : list float := map (fun _ => 0%float) a.

(** [a != 0] and [a == 0], elementwise (IEEE comparison: a NaN is
    [!= 0], and [-0.0 == 0]). *)
Definition ne0 (a : list float) : list bool := map (fun v => negb (v =? 0)%float) a.
Definition eq0 (a : list float) : list bool := map (fun v => (v =? 0)%float) a.

(** [~mask] *)
Definition invert (m : list bool) : list bool := map negb m.

(** [a[mask]]: the entries of [a] where [mask] is true, in order. *)
Fixpoint take_mask {A : Type} (m : list bool) (a : list A) : list A :=
  match m, a with
  | b :: m', x :: a' => if b then x :: take_mask m' a' else take_mask m' a'
  | _, _ => []
  end.

(** [a[mask] = v] for an array [v]: the entries of [v] go, in order, to the
    places of [a] where [mask] is true. *)
Fixpoint put_mask {A : Type} (m : list bool) (a v : list A) : list A :=
  match m, a with
  | b :: m', x :: a' =>
      if b then
        match v with
        | y :: v' => y :: put_mask m' a' v'
        | [] => x :: put_mask m' a' []
        end
      else x :: put_mask m' a' v
  | _, _ => a
  end.

(** [a[mask] = c] for a scalar [c]. *)
Fixpoint fill_mask {A : Type} (m : list bool) (a : list A) (c : A) : list A :=
  match m, a with
  | b :: m', x :: a' => (if b then c else x) :: fill_mask m' a' c
  | _, _ => a
  end.

Fixpoint zip_with {A B C : Type} (f : A -> B -> C) (a : list A) (b : list B) : list C :=
  match a, b with
  | x :: a', y :: b' => f x y :: zip_with f a' b'
  | _, _ => []
  end.

(** Elementwise [a * b], [c * a] and [a * c] for a scalar [c]. *)
Definition arr_mul (a b : list float) : list float := zip_with mul a b.
Definition scalar_mul (c : float) (a : list float) : list float := map (fun x => (c * x)%float) a.
Definition mul_scalar (a : list float) (c : float) : list float := map (fun x => (x * c)%float) a.

(** [a[mask] += v] is [a[mask] = a[mask] + v]. *)
Definition iadd_mask (m : list bool) (a v : list float) : list float :=
  put_mask m a (zip_with add (take_mask m a) v).

End Ndarray.
Import Ndarray.

(** ** Methods as computations over [self] *)

Module Py.

Inductive Exn : Type := IndexError | ValueError.

Inductive Warning : Type := RuntimeWarning (msg : string).

(** The object: the hyperparameter vector [self.params]. *)
Record Kernel := mkKernel { params : list float }.

(** What a call leaves behind: the value returned or the exception raised,
    the object after the call, the warnings emitted. *)
Record Outcome (A : Type) := mkOutcome {
  result : Exn + A;
  self_after : Kernel;
  warned : list Warning
}.

Definition M (A : Type) : Type := Kernel -> Outcome A.

Definition ret {A : Type} (a : A) : M A := fun self => mkOutcome (inr a) self [].

Definition raise {A : Type} (e : Exn) : M A := fun self => mkOutcome (inl e) self [].

Definition bind {A B : Type} (m : M A) (k : A -> M B) : M B := fun self =>
  let o := m self in
  match result o with
  | inl e => mkOutcome (inl e) (self_after o) (warned o)
  | inr a =>
      let o' := k a (self_after o) in
      mkOutcome (result o') (self_after o') (warned o ++ warned o')
  end.

(** [warnings.warn(msg, RuntimeWarning)] *)
Definition warn (w : Warning) : M unit := fun self => mkOutcome (inr tt) self [w].

(** [self.params] *)
Definition get_params : M (list float) := fun self => mkOutcome (inr (params self)) self [].

(** [self.params = ps], the hyperparameter update of the caller; no method
    of the kernel below calls it. *)
Definition set_params (ps : list float) : M unit := fun _ => mkOutcome (inr tt) (mkKernel ps) [].

(** A [for] loop that carries the value [a]. *)
Fixpoint foldM {A B : Type} (f : A -> B -> M A) (l : list B) (a : A) : M A :=
  match l with
  | [] => ret a
  | x :: l' => bind (f a x) (fun a' => foldM f l' a')
  end.

(** A computation that returns [a], leaves the object as it was and emits
    nothing. *)
Definition pure_at {A : Type} (m : M A) (self : Kernel) (a : A) : Prop :=
  m self = mkOutcome (inr a) self [].

(** The object after a call is the object before it. *)
Definition frame {A : Type} (m : M A) : Prop :=
  forall self, self_after (m self) = self.

(** A computation that raises [e], leaves the object as it was and emits
    nothing. *)
Definition raises_at {A : Type} (m : M A) (self : Kernel) (e : Exn) : Prop :=
  m self = mkOutcome (inl e) self [].

(** A computation that emits no warning, whether it returns or raises. *)
Definition silent {A : Type} (m : M A) : Prop :=
  forall self, warned (m self) = [].

End Py.
Import Py.

Declare Scope py_scope.
Delimit Scope py_scope with py.
Notation "x <- c1 ;; c2" := (bind c1 (fun x => c2))
  (at level 100, c1 at next level, right associativity) : py_scope.
Notation "c1 ;; c2" := (bind c1 (fun _ => c2))
  (at level 100, right associativity) : py_scope.
Notation "' pat <- c1 ;; c2" := (bind c1 (fun x => match x with pat => c2 end))
  (at level 100, pat pattern, c1 at next level, right associativity) : py_scope.

(** ** What the kernel takes from outside this file *)

(** The numerical libraries: Python's float power, [scipy.sqrt], the special
    functions of [scipy.special] and [scipy.misc], and the two calls of
    [mpmath.diff] (each with [singular=True, direction=1], passed through
    [mpmath.chop] and stored as a float). *)
Class Library := {
  (** [x ** y] *)
  pow : float -> float -> float;
  (** [scipy.sqrt(x)] *)
  scipy_sqrt : float -> float;
  (** [scipy.special.gamma(x)] *)
  gamma : float -> float;
  (** [scipy.special.kv(v, z)] *)
  kv : float -> float -> float;
  (** [scipy.special.kvp(v, z, n=n)] *)
  kvp : float -> float -> nat -> float;
  (** [scipy.special.poch(z, m)] *)
  poch : float -> float -> float;
  (** [scipy.special.binom(n, k)] *)
  binom : float -> float -> float;
  (** [scipy.misc.factorial(n)] *)
  factorial : float -> float;
  (** [mpmath.diff(lambda x: x**nu * mpmath.besselk(nu, x), 0, n=n, ...)],
      as a function of [nu] and [n] *)
  mp_diff_core : float -> nat -> float;
  (** [mpmath.diff(self._compute_y_wrapper, zeros(N), n=derivs, ...)], as a
      function of [self.params], [N] and [derivs] *)
  mp_diff_y : list float -> nat -> list nat -> float
}.

(** The rest of the package: the scaled squared distance of the base class
    [ChainRuleKernel] (gptools/kernel/core.py), which reads [self.params], and
    the enumerator of set partitions (gptools/utils). *)
Class Package := {
  (** [self._compute_r2l2(tau)], as a function of [self.params] and [tau] *)
  r2l2_of : list float -> Matrix -> list float;
  (** [generate_set_partitions(b)] *)
  generate_set_partitions : list nat -> list (list (list nat))
}.

(** ** Small helpers of the embedding *)

(** [self.params[i]] *)
Definition param (i : nat) : M float :=
  (ps <- get_params ;;
   match nth_error ps i with
   | Some v => ret v
   | None => raise IndexError
   end)%py.

(** [tau[mask]]: a boolean index array selects rows; its length must be the
    number of rows. *)
Definition take_rows (m : list bool) (tau : Matrix) : M Matrix :=
  if Nat.eqb (length m) (nrows tau)
  then ret (mkMatrix (ncols tau) (take_mask m (rows tau)))
  else raise IndexError.

(** [tau[:, j]] *)
Definition column (tau : Matrix) (j : nat) : M (list float) :=
  if Nat.ltb j (ncols tau)
  then ret (map (fun row => nth j row 0%float) (rows tau))
  else raise IndexError.

(** [a *= v] on one-dimensional arrays: [v] has the shape of [a], or a single
    entry that is broadcast. *)
Definition imul (a v : list float) : M (list float) :=
  if Nat.eqb (length v) (length a) then ret (arr_mul a v)
  else match v with
       | [c] => ret (mul_scalar a c)
       | _ => raise ValueError
       end.

(** [scipy.unique(b)]: the sorted distinct entries. *)
Fixpoint insert_unique (d : nat) (l : list nat) : list nat :=
  match l with
  | [] => [d]
  | x :: l' =>
      if Nat.ltb d x then d :: l
      else if Nat.eqb d x then l
      else x :: insert_unique d l'
  end.

Definition unique (b : list nat) : list nat := fold_right insert_unique [] b.

(** [derivs[d] += 1] *)
Fixpoint incr_at (d : nat) (derivs : list nat) : option (list nat) :=
  match derivs, d with
  | [], _ => None
  | c :: derivs', O => Some (S c :: derivs')
  | c :: derivs', S d' => option_map (cons c) (incr_at d' derivs')
  end.

(** ** class MaternKernel *)

Section MaternKernel.

Context {lib : Library} {pkg : Package}.

Local Open Scope float_scope.
Local Open Scope py_scope.

(** [self.nu]: the property returns [self.params[1]]. *)
Definition nu : M float := param 1.

(** [self._compute_r2l2(tau)], inherited. *)
Definition _compute_r2l2 (tau : Matrix) : M (list float) :=
  ps <- get_params ;;
  ret (r2l2_of ps tau).

(** [_compute_y(tau, return_r2l2=True)], the pair [(y, r2l2)]; with
    [return_r2l2=False] the method returns the first component. *)
Definition _compute_y (tau : Matrix) : M (list float * list float) :=
  r2l2 <- _compute_r2l2 tau ;;
  v <- nu ;;
  ret (map (fun r => scipy_sqrt (2 * v * r)) r2l2, r2l2).

(** [_compute_y_wrapper]: takes [tau] as an argument list, for
    [mpmath.diff]; the batch has the single row [args]. *)
Definition _compute_y_wrapper (args : list float) : M (list float) :=
  ' (y, _) <- _compute_y (mkMatrix (length args) [args]) ;;
  ret y.

(** [_compute_k(tau)]: the kernel value, less the [sigma^2] prefactor. *)
Definition _compute_k (tau : Matrix) : M (list float) :=
  ' (y, r2l2) <- _compute_y tau ;;
  v <- nu ;;
  let k := arr_mul (scalar_mul (pow 2 (1 - v) / gamma v) (map (fun yi => pow yi v) y))
                   (map (fun yi => kv v yi) y) in
  let k := fill_mask (eq0 r2l2) k 1 in
  ret k.

(** The warning of [_compute_dk_dy]. *)
Definition n_ge_2nu_warning : Warning :=
  RuntimeWarning "n >= 2*nu can yield inaccurate results.".

(** [_compute_dk_dy(y, n)]: the [n]-th derivative of the outer form.  The
    loop adds the terms of the Leibniz rule to the rows with [y != 0]; the
    rows with [y == 0] then receive the closed form for [n < 2 nu] or the
    numerical derivative otherwise; the whole array is scaled last. *)
Definition _compute_dk_dy (y : list float) (n : nat) : M (list float) :=
  let dk_dy := zeros_like y in
  let non_zero_idxs := ne0 y in
  dk_dy <- foldM (fun dk_dy k =>
             v <- nu ;;
             ret (iadd_mask non_zero_idxs dk_dy
                    (arr_mul
                       (scalar_mul (binom (float_of_nat n) (float_of_nat k) *
                                    poch (float_of_Z (1 - Z.of_nat k) + v) (float_of_nat k))
                                   (map (fun yi => pow yi (float_of_Z (- Z.of_nat k) + v))
                                        (take_mask non_zero_idxs y)))
                       (map (fun yi => kvp v yi (n - k)) (take_mask non_zero_idxs y)))))
           (seq 0 (n + 1)) dk_dy ;;
  v <- nu ;;
  (if 2 * v <=? float_of_nat n then warn n_ge_2nu_warning else ret tt) ;;
  let dk_dy :=
    if float_of_nat n <? 2 * v then
      if Nat.eqb (n mod 2) 1 then
        fill_mask (invert non_zero_idxs) dk_dy 0
      else
        let m := float_of_nat n / 2 in
        fill_mask (invert non_zero_idxs) dk_dy
          (pow (-1) m *
           pow 2 (v - 1 - float_of_nat n) *
           gamma (v - m) *
           factorial (float_of_nat n) / factorial m)
    else
      let deriv := mp_diff_core v n in
      fill_mask (invert non_zero_idxs) dk_dy deriv in
  let dk_dy := mul_scalar dk_dy (pow 2 (1 - v) / gamma v) in
  ret dk_dy.

(** [_compute_dT_dtau(tau, b)]: the derivative of the sum of the
    [tau_i^2 / l_i^2] with respect to the dimensions of the block [b].
    [unique_d[0]] raises on an empty block, [tau[:, tau_idx]] and
    [self.params[2 + tau_idx]] raise out of range. *)
Definition _compute_dT_dtau (tau : Matrix) (b : list nat) : M (list float) :=
  let unique_d := unique b in
  if Nat.leb 3 (length b) || Nat.ltb 1 (length unique_d) then
    ret (zeros (nrows tau))
  else
    match unique_d with
    | [] => raise IndexError
    | tau_idx :: _ =>
        if Nat.eqb (length b) 1 then
          col <- column tau tau_idx ;;
          l <- param (2 + tau_idx) ;;
          ret (map (fun t => 2 * t / pow l 2) col)
        else
          l <- param (2 + tau_idx) ;;
          ret (scalar_mul (2 / pow l 2) (ones (nrows tau)))
    end.

(** [_compute_dy_dtau_on_partition(tau, p, r2l2)]: the term of Faa di
    Bruno's formula for the partition [p]. *)
Definition _compute_dy_dtau_on_partition (tau : Matrix) (p : list (list nat))
    (r2l2 : list float) : M (list float) :=
  let n := length p in
  v <- nu ;;
  let dy_dtau :=
    scalar_mul (scipy_sqrt (2 * v) * poch (float_of_Z (1 - Z.of_nat n) + 0.5) (float_of_nat n))
               (map (fun r => pow r (float_of_Z (- Z.of_nat n) + 0.5)) r2l2) in
  foldM (fun dy_dtau b =>
           dT <- _compute_dT_dtau tau b ;;
           imul dy_dtau dT)
        p dy_dtau.

(** [_compute_dy_dtau(tau, b, r2l2)]: the derivative of the inner
    argument.  The loop adds the term of each partition to the rows with
    [r2l2 != 0]; [derivs] counts the dimensions of [b]; the rows with
    [r2l2 == 0] receive the numerical derivative at the origin. *)
Definition _compute_dy_dtau (tau : Matrix) (b : list nat) (r2l2 : list float) : M (list float) :=
  let deriv_partitions := generate_set_partitions b in
  let dy_dtau := zeros_like r2l2 in
  let non_zero_idxs := ne0 r2l2 in
  dy_dtau <- foldM (fun dy_dtau p =>
               tau_nz <- take_rows non_zero_idxs tau ;;
               term <- _compute_dy_dtau_on_partition tau_nz p (take_mask non_zero_idxs r2l2) ;;
               ret (iadd_mask non_zero_idxs dy_dtau term))
             deriv_partitions dy_dtau ;;
  derivs <- foldM (fun derivs d =>
               match incr_at d derivs with
               | Some derivs' => ret derivs'
               | None => raise IndexError
               end)
             b (repeat 0%nat (ncols tau)) ;;
  ps <- get_params ;;
  ret (fill_mask (invert non_zero_idxs) dy_dtau (mp_diff_y ps (ncols tau) derivs)).

End MaternKernel.

(** ** A library and a package to run the kernel on

    The special functions at the arguments where they are finite products:
    integral and half-integral powers, the gamma function and the factorial
    at integers, the rising factorial and the binomial coefficient at
    integral orders.  The Bessel function is given by its leading term at
    small arguments, [K_v(z) ~ Gamma(v)/2 * (2/z)^v], and the two numerical
    derivatives are fixed at 0: the runs below serve as instances of the
    theorems, and the results of the two runs with [nu = 200] do not
    depend on these stand-ins. *)

Module Sample.

Local Open Scope float_scope.

Fixpoint find_nat (fuel k : nat) (x : float) : option nat :=
  match fuel with
  | O => None
  | S fuel' => if float_of_nat k =? x then Some k else find_nat fuel' (S k) x
  end.

(** The natural number a float holds, when it is one below 400. *)
Definition nat_of_float (x : float) : option nat := find_nat 400 0 x.

Fixpoint pow_nat (x : float) (k : nat) : float :=
  match k with
  | O => 1
  | S k' => x * pow_nat x k'
  end.

(** [x ** e] for an exponent that is an integer or an integer plus a half. *)
Definition pow_integral (x e : float) : float :=
  match nat_of_float e, nat_of_float (- e) with
  | Some k, _ => pow_nat x k
  | None, Some k => 1 / pow_nat x k
  | None, None =>
      match nat_of_float (e - 0.5), nat_of_float (- e - 0.5) with
      | Some k, _ => pow_nat x k * sqrt x
      | None, Some k => 1 / (pow_nat x k * sqrt x)
      | None, None => nan
      end
  end.

Fixpoint fact_float (k : nat) : float :=
  match k with
  | O => 1
  | S k' => float_of_nat k * fact_float k'
  end.

Definition gamma_integral (x : float) : float :=
  match nat_of_float x with
  | Some (S k) => fact_float k
  | Some O => infinity
  | None => nan
  end.

Fixpoint poch_nat (z : float) (m : nat) : float :=
  match m with
  | O => 1
  | S m' => poch_nat z m' * (z + float_of_nat m')
  end.

Definition poch_integral (z m : float) : float :=
  match nat_of_float m with
  | Some k => poch_nat z k
  | None => nan
  end.

Fixpoint binom_nat (n k : nat) : nat :=
  match n, k with
  | _, O => 1
  | O, S _ => 0
  | S n', S k' => binom_nat n' k' + binom_nat n' k
  end.

Definition binom_integral (n k : float) : float :=
  match nat_of_float n, nat_of_float k with
  | Some n', Some k' => float_of_nat (binom_nat n' k')
  | _, _ => nan
  end.

Definition kv_leading (v z : float) : float :=
  gamma_integral v / 2 * pow_integral (2 / z) v.

Definition kvp_leading (v z : float) (n : nat) : float :=
  match n with
  | O => kv_leading v z
  | S _ => pow_integral (-0.5) (float_of_nat n) * kv_leading (v + float_of_nat n) z
  end.

#[local] Instance library : Library := {
  pow := pow_integral;
  scipy_sqrt := sqrt;
  gamma := gamma_integral;
  kv := kv_leading;
  kvp := kvp_leading;
  poch := poch_integral;
  binom := binom_integral;
  factorial := fun x => gamma_integral (x + 1);
  mp_diff_core := fun _ _ => 0;
  mp_diff_y := fun _ _ _ => 0
}.

(** Modelled from the spec: the scaled squared distance of the base class,
    [r2l2 = sum_i (tau_i / l_i)^2] per row, the length scales being the
    entries of the hyperparameter vector from index 2 on. *)
Definition r2l2_rows (ps : list float) (tau : Matrix) : list float :=
  map (fun row =>
         fold_left (fun acc tl => acc + (fst tl / snd tl) * (fst tl / snd tl))
                   (combine row (skipn 2 ps)) 0)
      (rows tau).

(** Modelled from the spec: the enumerator of set partitions; every
    partition of the positions of [b] into non-empty blocks appears once. *)
Fixpoint add_to_each (d : nat) (p : list (list nat)) : list (list (list nat)) :=
  match p with
  | [] => []
  | blk :: p' => ((d :: blk) :: p') :: map (cons blk) (add_to_each d p')
  end.

(** Modelled from the spec: [partitions(multiset)], the sequence of the
    set partitions of [b]; the first entry joins a new block or one of the
    blocks of a partition of the rest. *)
Fixpoint set_partitions (b : list nat) : list (list (list nat)) :=
  match b with
  | [] => [[]]
  | d :: b' =>
      flat_map (fun p => ([d] :: p) :: add_to_each d p) (set_partitions b')
  end.

#[local] Instance package : Package := {
  r2l2_of := r2l2_rows;
  generate_set_partitions := set_partitions
}.

(** A kernel over two dimensions, [sigma = 1, nu = 2, l = (1, 1)], and a
    batch of three difference vectors, the first at the origin. *)
Definition kernel : Kernel := mkKernel [1; 2; 1; 1].

Definition tau : Matrix := mkMatrix 2 [[0; 0]; [1; 3]; [2; 1]].

(** The same kernel with [nu = 200]. *)
Definition kernel_nu200 : Kernel := mkKernel [1; 200; 1; 1].

End Sample.

(** The library with other values for the two numerical derivatives. *)
Definition with_fallbacks (lib : Library) (core : float -> nat -> float)
    (ydiff : list float -> nat -> list nat -> float) : Library := {|
  pow := pow;
  scipy_sqrt := scipy_sqrt;
  gamma := gamma;
  kv := kv;
  kvp := kvp;
  poch := poch;
  binom := binom;
  factorial := factorial;
  mp_diff_core := core;
  mp_diff_y := ydiff
|}.

(** ** The formulas of the specification, row by row

    What the specification says each evaluator returns at one row, written
    from its words; the theorems below compare the methods with them.  A sum
    over [k = 0..n] or over the partitions is accumulated from [0], in the
    order of the enumeration. *)

Section Formulas.

Context {lib : Library} {pkg : Package}.

Local Open Scope float_scope.

(** The outer factor [2^(1-nu) / Gamma(nu)]. *)
Definition outer_scale (v : float) : float := pow 2 (1 - v) / gamma v.

(** [k(tau) = 2^(1-nu)/Gamma(nu) * y^nu * K_nu(y)] *)
Definition matern_formula (v y : float) : float :=
  outer_scale v * pow y v * kv v y.

(** [binom(n,k) * poch(1-k+nu, k) * y^(nu-k) * K_nu^(n-k)(y)] *)
Definition leibniz_term (v y : float) (n k : nat) : float :=
  binom (float_of_nat n) (float_of_nat k) *
  poch (float_of_Z (1 - Z.of_nat k) + v) (float_of_nat k) *
  pow y (float_of_Z (- Z.of_nat k) + v) *
  kvp v y (n - k).

(** The sum of the terms for [k = 0..n]. *)
Definition leibniz_sum (v y : float) (n : nat) : float :=
  fold_left (fun acc k => acc + leibniz_term v y n k) (seq 0 (S n)) 0.

(** [(-1)^m * 2^(nu-1-n) * Gamma(nu-m) * n! / m!] with [m = n/2]. *)
Definition closed_form_even (v : float) (n : nat) : float :=
  let m := float_of_nat n / 2 in
  pow (-1) m * pow 2 (v - 1 - float_of_nat n) * gamma (v - m) *
  factorial (float_of_nat n) / factorial m.

(** The value of the rows with [y == 0], before the outer factor. *)
Definition origin_value (v : float) (n : nat) : float :=
  if float_of_nat n <? 2 * v then
    if Nat.eqb (n mod 2) 1 then 0 else closed_form_even v n
  else mp_diff_core v n.

(** The derivative of [r2l2] with respect to the dimensions of one block,
    at one row: zero for an order of 3 or more and for a mixed block,
    [2 tau_d / l_d^2] for the order 1, [2 / l_d^2] for the order 2. *)
Definition block_derivative (ps : list float) (b : list nat) (row : list float) : float :=
  if Nat.leb 3 (length b) || Nat.ltb 1 (length (unique b)) then 0
  else
    let d := hd 0%nat (unique b) in
    let l := nth (2 + d) ps 0 in
    if Nat.eqb (length b) 1 then 2 * nth d row 0 / pow l 2
    else 2 / pow l 2.

(** [sqrt(2 nu) * poch(1 - n_p + 0.5, n_p) * r2l2^(-n_p + 0.5)], multiplied
    by the derivatives of the blocks of the partition. *)
Definition partition_term (v : float) (ps : list float) (p : list (list nat))
    (r : float) (row : list float) : float :=
  fold_left (fun acc b => acc * block_derivative ps b row) p
    (scipy_sqrt (2 * v) * poch (float_of_Z (1 - Z.of_nat (length p)) + 0.5) (float_of_nat (length p)) *
     pow r (float_of_Z (- Z.of_nat (length p)) + 0.5)).

(** The running product of a partition with [n] blocks after the blocks [p]
    of it: the prefactor multiplied by their derivatives. *)
Definition partition_partial (v : float) (ps : list float) (n : nat) (p : list (list nat))
    (r : float) (row : list float) : float :=
  fold_left (fun acc b => acc * block_derivative ps b row) p
    (scipy_sqrt (2 * v) * poch (float_of_Z (1 - Z.of_nat n) + 0.5) (float_of_nat n) *
     pow r (float_of_Z (- Z.of_nat n) + 0.5)).

(** The sum of the terms over a list of partitions. *)
Definition partition_sum (v : float) (ps : list float) (parts : list (list (list nat)))
    (r : float) (row : list float) : float :=
  fold_left (fun acc p => acc + partition_term v ps p r row) parts 0.

(** A block on which the distance derivative raises no [IndexError]: its
    dimension is a column of a matrix with [n] columns (order 1) and has a
    length scale in a hyperparameter vector of [np] entries. *)
Definition block_in_range (n np : nat) (b : list nat) : bool :=
  if Nat.leb 3 (length b) || Nat.ltb 1 (length (unique b)) then true
  else
    match unique b with
    | [] => false
    | d :: _ =>
        (if Nat.eqb (length b) 1 then Nat.ltb d n else true) && Nat.ltb (2 + d) np
    end.

(** The number of times each of the dimensions [0..n-1] occurs in [b]. *)
Definition occurrences (n : nat) (b : list nat) : list nat :=
  map (fun j => count_occ Nat.eq_dec b j) (seq 0 n).

(** *** The rows of each evaluator: the formula where the row is regular,
    the value of the dedicated branch where it is at the origin *)

(** The rows of the kernel value. *)
Definition k_row (v r : float) : float :=
  if r =? 0 then 1 else matern_formula v (scipy_sqrt (2 * v * r)).

(** The rows of the outer derivative. *)
Definition dk_dy_row (v : float) (n : nat) (yi : float) : float :=
  (if negb (yi =? 0) then leibniz_sum v yi n else origin_value v n) * outer_scale v.

(** The rows of the inner derivative. *)
Definition dy_dtau_row (v : float) (ps : list float) (n : nat) (b : list nat)
    (rr : float * list float) : float :=
  if negb (fst rr =? 0)
  then partition_sum v ps (generate_set_partitions b) (fst rr) (snd rr)
  else mp_diff_y ps n (occurrences n b).

End Formulas.

(** * Facts about the arrays *)

Module NdarrayFacts.

Lemma repeat_as_map (A B : Type) (c : B) (l : list A) :
  repeat c (length l) = map (fun _ => c) l.
Proof. induction l as [|x l IH]; simpl; [reflexivity | now rewrite IH]. Qed.

Lemma zip_with_map_same (A B C D : Type) (f : B -> C -> D) (g : A -> B) (h : A -> C)
    (l : list A) :
  zip_with f (map g l) (map h l) = map (fun x => f (g x) (h x)) l.
Proof. induction l as [|x l IH]; simpl; [reflexivity | now rewrite IH]. Qed.

Lemma take_mask_combine (A B : Type) (m : list bool) (a : list A) (b : list B) :
  take_mask m (combine a b) = combine (take_mask m a) (take_mask m b).
Proof.
  revert a b. induction m as [|c m IH]; intros [|x a] [|y b]; simpl; try reflexivity.
  - destruct c; simpl; [reflexivity|]. now destruct (take_mask m a).
  - destruct c; simpl; now rewrite IH.
Qed.

Lemma take_mask_length (A B : Type) (m : list bool) (a : list A) (b : list B) :
  length a = length b -> length (take_mask m a) = length (take_mask m b).
Proof.
  revert a b. induction m as [|c m IH]; intros [|x a] [|y b] H; simpl in *;
    try reflexivity; try discriminate.
  destruct c; simpl; auto.
Qed.

(** [a[mask] += g(y[mask])] row by row, when the mask and [a] are computed
    from the rows of [y]. *)
Lemma iadd_mask_rows (A : Type) (P : A -> bool) (f g : A -> float) (ys : list A) :
  iadd_mask (map P ys) (map f ys) (map g (take_mask (map P ys) ys))
  = map (fun y => if P y then (f y + g y)%float else f y) ys.
Proof.
  unfold iadd_mask. induction ys as [|y ys IH]; simpl; [reflexivity|].
  destruct (P y); simpl; now rewrite IH.
Qed.

(** [a[mask] = c] row by row. *)
Lemma fill_mask_rows (A B : Type) (P : A -> bool) (f : A -> B) (c : B) (ys : list A) :
  fill_mask (map P ys) (map f ys) c = map (fun y => if P y then c else f y) ys.
Proof. induction ys as [|y ys IH]; simpl; [reflexivity | now rewrite IH]. Qed.

Lemma map_fst_combine (A B C : Type) (f : A -> C) (a : list A) (b : list B) :
  length a = length b -> map f a = map (fun p => f (fst p)) (combine a b).
Proof.
  revert b. induction a as [|x a IH]; intros [|y b] H; simpl in *;
    try reflexivity; try discriminate.
  f_equal. apply IH. now injection H.
Qed.

Lemma map_snd_combine (A B C : Type) (f : B -> C) (a : list A) (b : list B) :
  length a = length b -> map f b = map (fun p => f (snd p)) (combine a b).
Proof.
  revert b. induction a as [|x a IH]; intros [|y b] H; simpl in *;
    try reflexivity; try discriminate.
  f_equal. apply IH. now injection H.
Qed.

Lemma nth_error_map_some (A B : Type) (f : A -> B) (l : list A) (i : nat) (x : A) :
  nth_error l i = Some x -> nth_error (map f l) i = Some (f x).
Proof. intros H. now rewrite nth_error_map, H. Qed.

End NdarrayFacts.
Import NdarrayFacts.

(** * Facts about computations over [self] *)

Module PyFacts.

Lemma bind_pure (A B : Type) (m : M A) (k : A -> M B) (self : Kernel) (a : A) :
  pure_at m self a -> bind m k self = k a self.
Proof.
  unfold pure_at, bind. intros ->. simpl. now destruct (k a self).
Qed.

Lemma ret_pure (A : Type) (a : A) (self : Kernel) : pure_at (ret a) self a.
Proof. reflexivity. Qed.

Lemma get_params_pure (self : Kernel) : pure_at get_params self (params self).
Proof. reflexivity. Qed.

Lemma pure_bind (A B : Type) (m : M A) (k : A -> M B) (self : Kernel) (a : A) (b : B) :
  pure_at m self a -> pure_at (k a) self b -> pure_at (bind m k) self b.
Proof. intros Hm Hk. unfold pure_at. now rewrite (bind_pure _ Hm). Qed.

Lemma foldM_pure (A B : Type) (f : A -> B -> M A) (g : A -> B -> A) (self : Kernel)
    (l : list B) :
  (forall a x, In x l -> pure_at (f a x) self (g a x)) ->
  forall a, pure_at (foldM f l a) self (fold_left g l a).
Proof.
  induction l as [|x l IH]; intros Hf a; simpl.
  - reflexivity.
  - unfold pure_at. rewrite (bind_pure _ (Hf a x (or_introl eq_refl))).
    apply IH. intros a' x' Hin. apply Hf. now right.
Qed.

Lemma frame_ret (A : Type) (a : A) : frame (ret a).
Proof. now intros self. Qed.

Lemma frame_raise (A : Type) (e : Exn) : frame (raise (A:=A) e).
Proof. now intros self. Qed.

Lemma frame_warn (w : Warning) : frame (warn w).
Proof. now intros self. Qed.

Lemma frame_get_params : frame get_params.
Proof. now intros self. Qed.

Lemma frame_bind (A B : Type) (m : M A) (k : A -> M B) :
  frame m -> (forall a, frame (k a)) -> frame (bind m k).
Proof.
  intros Hm Hk self. unfold bind. pose proof (Hm self) as E.
  destruct (m self) as [[e|a] s w]; simpl in *; [assumption|].
  subst s. apply Hk.
Qed.

Lemma frame_foldM (A B : Type) (f : A -> B -> M A) (l : list B) :
  (forall a x, frame (f a x)) -> forall a, frame (foldM f l a).
Proof.
  intros Hf. induction l as [|x l IH]; intros a; simpl.
  - apply frame_ret.
  - apply frame_bind; auto.
Qed.

Lemma frame_if (A : Type) (c : bool) (m1 m2 : M A) :
  frame m1 -> frame m2 -> frame (if c then m1 else m2).
Proof. now destruct c. Qed.

End PyFacts.
Import PyFacts.

(** A computation that writes the object is not a frame. *)
Lemma set_params_is_not_frame : ~ frame (set_params []).
Proof. intros H. specialize (H (mkKernel [0%float])). discriminate. Qed.

Create HintDb frame_db.
#[export] Hint Resolve frame_ret frame_raise frame_warn frame_get_params : frame_db.

(** * Facts about binary64 arithmetic

    Exact identities of IEEE 754 arithmetic, from the specification of the
    primitive operations: multiplying or dividing by one and subtracting
    zero change nothing, zero times a finite number is a zero, and a
    product of finite numbers is not a NaN. *)

Module Binary64.

Local Open Scope float_scope.
Unset Implicit Arguments.

Lemma Prim2SF_one : Prim2SF 1 = S754_finite false 4503599627370496 (-52).
Proof. reflexivity. Qed.

Lemma Prim2SF_zero : Prim2SF 0 = S754_zero false.
Proof. reflexivity. Qed.

Lemma digits2_pos_shift (m : positive) (k : nat) :
  Zpos (digits2_pos (Nat.iter k xO m)) = (Zpos (digits2_pos m) + Z.of_nat k)%Z.
Proof.
  induction k as [|k IH].
  - simpl. lia.
  - rewrite Nat.iter_succ. cbn [digits2_pos]. rewrite Pos2Z.inj_succ, IH. lia.
Qed.

Lemma Zpos_shift (m : positive) (k : nat) :
  Zpos (Nat.iter k xO m) = (Zpos m * 2 ^ Z.of_nat k)%Z.
Proof.
  induction k as [|k IH].
  - simpl. lia.
  - rewrite Nat.iter_succ, Pos2Z.inj_xO, IH, Nat2Z.inj_succ, Z.pow_succ_r by lia. lia.
Qed.

(** A canonical mantissa and exponent round to themselves. *)
Lemma round_canonical (s : bool) (m : positive) (e : Z) :
  bounded prec emax m e = true ->
  binary_round_aux prec emax s (Zpos m) e loc_Exact = S754_finite s m e.
Proof.
  unfold bounded, canonical_mantissa. intros Hv.
  apply andb_true_iff in Hv. destruct Hv as [Hc Hb]. apply Z.eqb_eq in Hc.
  assert (E : shr_fexp prec emax (Zpos m) e loc_Exact
              = (Build_shr_record (Zpos m) false false, e)).
  { unfold shr_fexp, Zdigits2. rewrite Hc, Z.sub_diag. reflexivity. }
  unfold binary_round_aux. rewrite E.
  cbn [shr_m loc_of_shr_record round_nearest_even]. rewrite E.
  cbn [shr_m]. now rewrite Hb.
Qed.

(** A canonical mantissa shifted left by [k <= 53] bits rounds back to
    itself, or to an infinity when its exponent is out of range. *)
Lemma round_shifted_canonical (s : bool) (m : positive) (e : Z) (k : nat) :
  (k <= 53)%nat ->
  canonical_mantissa prec emax m e = true ->
  binary_round_aux prec emax s (Zpos (Nat.iter k xO m)) (e - Z.of_nat k) loc_Exact
  = if (e <=? emax - prec)%Z then S754_finite s m e else S754_infinity s.
Proof.
  intros Hk Hc. unfold canonical_mantissa in Hc. apply Z.eqb_eq in Hc.
  assert (E : shr_fexp prec emax (Zpos (Nat.iter k xO m)) (e - Z.of_nat k) loc_Exact
              = (Build_shr_record (Zpos m) false false, e)).
  { unfold shr_fexp, Zdigits2. rewrite digits2_pos_shift.
    replace (Z.pos (digits2_pos m) + Z.of_nat k + (e - Z.of_nat k))%Z
      with (Z.pos (digits2_pos m) + e)%Z by lia.
    rewrite Hc. replace (e - (e - Z.of_nat k))%Z with (Z.of_nat k) by lia.
    unfold shr_record_of_loc.
    do 54 (destruct k as [|k]; [ try lia; cbn; f_equal; lia | ]). lia. }
  assert (E' : shr_fexp prec emax (Zpos m) e loc_Exact
               = (Build_shr_record (Zpos m) false false, e)).
  { unfold shr_fexp, Zdigits2. rewrite Hc, Z.sub_diag. reflexivity. }
  unfold binary_round_aux. rewrite E.
  cbn [shr_m loc_of_shr_record round_nearest_even]. rewrite E'.
  reflexivity.
Qed.

(** The same value with its mantissa shifted left by [k <= 53] bits. *)
Lemma round_shifted (s : bool) (m : positive) (e : Z) (k : nat) :
  (0 < k <= 53)%nat ->
  bounded prec emax m e = true ->
  binary_round_aux prec emax s (Zpos (Nat.iter k xO m)) (e - Z.of_nat k) loc_Exact
  = S754_finite s m e.
Proof.
  intros Hk Hv. unfold bounded in Hv. apply andb_true_iff in Hv.
  destruct Hv as [Hc Hb].
  rewrite round_shifted_canonical; [now rewrite Hb | lia | exact Hc].
Qed.

Lemma SFmul_one_r (x : spec_float) :
  valid_binary x = true -> SF64mul x (S754_finite false 4503599627370496 (-52)) = x.
Proof.
  destruct x as [s|s| |s m e]; intros Hv; cbn [SF64mul SFmul];
    try rewrite xorb_false_r; try reflexivity.
  rewrite Pos.mul_comm.
  change (4503599627370496 * m)%positive with (Nat.iter 52 xO m).
  change (e + -52)%Z with (e - Z.of_nat 52)%Z.
  apply round_shifted; [lia | exact Hv].
Qed.

Lemma SFmul_one_l (x : spec_float) :
  valid_binary x = true -> SF64mul (S754_finite false 4503599627370496 (-52)) x = x.
Proof.
  destruct x as [s|s| |s m e]; intros Hv; cbn [SF64mul SFmul xorb];
    try reflexivity.
  change (4503599627370496 * m)%positive with (Nat.iter 52 xO m).
  replace (-52 + e)%Z with (e - Z.of_nat 52)%Z by (change (Z.of_nat 52) with 52%Z; lia).
  apply round_shifted; [lia | exact Hv].
Qed.

Lemma fexp_pred (d e : Z) :
  fexp prec emax (d + e) = e ->
  fexp prec emax (d + e - 1) = e \/ fexp prec emax (d + e - 1) = (e - 1)%Z.
Proof. unfold fexp, emin, prec, emax. lia. Qed.

Lemma SFdiv_one (x : spec_float) :
  valid_binary x = true -> SF64div x (S754_finite false 4503599627370496 (-52)) = x.
Proof.
  destruct x as [s|s| |s m e]; intros Hv; cbn [SF64div SFdiv];
    try rewrite xorb_false_r; try reflexivity.
  pose proof Hv as Hv'. cbn [valid_binary] in Hv'.
  unfold bounded, canonical_mantissa in Hv'.
  apply andb_true_iff in Hv'. destruct Hv' as [Hc Hb]. apply Z.eqb_eq in Hc.
  unfold SFdiv_core_binary.
  change (Zdigits2 (Z.pos 4503599627370496) + -52)%Z with 1%Z.
  cbn [Zdigits2].
  replace (Z.pos (digits2_pos m) + e - 1)%Z with (Z.pos (digits2_pos m) + e - 1)%Z by lia.
  destruct (fexp_pred _ _ Hc) as [F|F]; rewrite F.
  - replace (Z.min e (e - -52)) with e by lia.
    replace (e - -52 - e)%Z with 52%Z by lia.
    change (Z.shiftl (Z.pos m) 52) with (Zpos (Nat.iter 52 xO m)).
    assert (D : Z.div_eucl (Z.pos (Nat.iter 52 xO m)) 4503599627370496 = (Zpos m, 0%Z)).
    { pose proof (Z.div_eucl_eq (Z.pos (Nat.iter 52 xO m)) 4503599627370496 ltac:(lia)) as Q.
      pose proof (Z.mod_pos_bound (Z.pos (Nat.iter 52 xO m)) 4503599627370496 ltac:(lia)) as B.
      unfold Z.modulo in B.
      destruct (Z.div_eucl (Z.pos (Nat.iter 52 xO m)) 4503599627370496) as [q r].
      rewrite Zpos_shift in Q. change (2 ^ Z.of_nat 52)%Z with 4503599627370496%Z in Q.
      f_equal; nia. }
    rewrite D. cbn [new_location new_location_even Z.even Z.eqb].
    now apply round_canonical.
  - replace (Z.min (e - 1) (e - -52)) with (e - 1)%Z by lia.
    replace (e - -52 - (e - 1))%Z with 53%Z by lia.
    change (Z.shiftl (Z.pos m) 53) with (Zpos (Nat.iter 53 xO m)).
    assert (D : Z.div_eucl (Z.pos (Nat.iter 53 xO m)) 4503599627370496 = (Zpos m~0, 0%Z)).
    { pose proof (Z.div_eucl_eq (Z.pos (Nat.iter 53 xO m)) 4503599627370496 ltac:(lia)) as Q.
      pose proof (Z.mod_pos_bound (Z.pos (Nat.iter 53 xO m)) 4503599627370496 ltac:(lia)) as B.
      unfold Z.modulo in B.
      destruct (Z.div_eucl (Z.pos (Nat.iter 53 xO m)) 4503599627370496) as [q r].
      rewrite Zpos_shift in Q. change (2 ^ Z.of_nat 53)%Z with 9007199254740992%Z in Q.
      f_equal; nia. }
    rewrite D. cbn [new_location new_location_even Z.even Z.eqb].
    change (Zpos m~0) with (Zpos (Nat.iter 1 xO m)).
    change (e - 1)%Z with (e - Z.of_nat 1)%Z.
    apply round_shifted; [lia | exact Hv].
Qed.

Lemma mul_1_r (x : float) : x * 1 = x.
Proof.
  apply Prim2SF_inj. rewrite mul_spec, Prim2SF_one.
  apply SFmul_one_r, Prim2SF_valid.
Qed.

Lemma mul_1_l (x : float) : 1 * x = x.
Proof.
  apply Prim2SF_inj. rewrite mul_spec, Prim2SF_one.
  apply SFmul_one_l, Prim2SF_valid.
Qed.

Lemma div_1_r (x : float) : x / 1 = x.
Proof.
  apply Prim2SF_inj. rewrite div_spec, Prim2SF_one.
  apply SFdiv_one, Prim2SF_valid.
Qed.

Lemma sub_0_r (x : float) : x - 0 = x.
Proof.
  apply Prim2SF_inj. rewrite sub_spec, Prim2SF_zero.
  unfold SF64sub, SFsub. now destruct (Prim2SF x) as [[]|[]| |].
Qed.


(** Classification through [Prim2SF]. *)
Lemma is_nan_SF (x : float) : is_nan x = true <-> Prim2SF x = S754_nan.
Proof.
  unfold Prim2SF. split.
  - now intros ->.
  - destruct (is_nan x); [reflexivity|].
    destruct (is_zero x); [discriminate|].
    destruct (is_infinity x); [discriminate|].
    destruct (Z.frexp x) as [r ex].
    destruct (shr_fexp _ _ _ _ _) as [sh e'].
    destruct (shr_m sh); discriminate.
Qed.

Lemma is_finite_SF (x : float) :
  is_finite x = true ->
  match Prim2SF x with
  | S754_zero _ | S754_finite _ _ _ => True
  | _ => False
  end.
Proof.
  unfold is_finite, Prim2SF.
  destruct (is_nan x); [discriminate|].
  destruct (is_infinity x); [discriminate|]. intros _.
  destruct (is_zero x); [exact I|].
  destruct (Z.frexp x) as [r ex].
  destruct (shr_fexp _ _ _ _ _) as [sh e'].
  now destruct (shr_m sh).
Qed.

Lemma mul_0_finite (s : float) : is_finite s = true -> (0 * s =? 0) = true.
Proof.
  intros H. apply is_finite_SF in H.
  rewrite eqb_spec, mul_spec, Prim2SF_zero.
  now destruct (Prim2SF s).
Qed.

Lemma shr_1_nonneg (r : shr_record) : (0 <= shr_m r)%Z -> (0 <= shr_m (shr_1 r))%Z.
Proof. destruct r as [[|[p|p|]|p] r s]; simpl; lia. Qed.

Lemma iter_shr_1_nonneg (p : positive) :
  forall r, (0 <= shr_m r)%Z -> (0 <= shr_m (iter_pos shr_1 p r))%Z.
Proof.
  induction p as [p IH|p IH|]; intros r H; cbn [iter_pos].
  - apply IH, IH, shr_1_nonneg, H.
  - apply IH, IH, H.
  - apply shr_1_nonneg, H.
Qed.

Lemma shr_fexp_nonneg (m e : Z) (l : location) :
  (0 <= m)%Z -> (0 <= shr_m (fst (shr_fexp prec emax m e l)))%Z.
Proof.
  intros H. unfold shr_fexp, shr.
  assert (H0 : (0 <= shr_m (shr_record_of_loc m l))%Z) by now destruct l as [|[]].
  destruct (fexp prec emax (Zdigits2 m + e) - e)%Z; cbn [fst]; auto.
  now apply iter_shr_1_nonneg.
Qed.

Lemma round_nearest_even_nonneg (m : Z) (l : location) :
  (0 <= m)%Z -> (0 <= round_nearest_even m l)%Z.
Proof.
  intros H. destruct l as [|[]]; cbn [round_nearest_even]; try lia.
  destruct (Z.even m); lia.
Qed.

Lemma binary_round_aux_not_nan (s : bool) (m : positive) (e : Z) (l : location) :
  binary_round_aux prec emax s (Zpos m) e l <> S754_nan.
Proof.
  unfold binary_round_aux.
  pose proof (shr_fexp_nonneg (Zpos m) e l ltac:(lia)) as H1.
  destruct (shr_fexp prec emax (Zpos m) e l) as [r1 e1]. cbn [fst] in H1.
  pose proof (shr_fexp_nonneg (round_nearest_even (shr_m r1) (loc_of_shr_record r1)) e1
                loc_Exact (round_nearest_even_nonneg _ _ H1)) as H2.
  destruct (shr_fexp prec emax _ e1 loc_Exact) as [r2 e2]. cbn [fst] in H2.
  destruct (shr_m r2); try lia; [discriminate|].
  destruct (e2 <=? emax - prec)%Z; discriminate.
Qed.

Lemma mul_finite_not_nan (x s : float) :
  is_finite x = true -> is_finite s = true -> is_nan (x * s) = false.
Proof.
  intros Hx Hs. apply is_finite_SF in Hx, Hs.
  destruct (is_nan (x * s)) eqn:E; [|reflexivity].
  apply is_nan_SF in E. rewrite mul_spec in E.
  destruct (Prim2SF x), (Prim2SF s); try contradiction; try discriminate.
  now apply binary_round_aux_not_nan in E.
Qed.

Lemma SFcompare_antisym (a b : spec_float) :
  SFcompare b a = option_map CompOpp (SFcompare a b).
Proof.
  destruct a as [s1|s1| |s1 m1 e1], b as [s2|s2| |s2 m2 e2];
    try destruct s1; try destruct s2; cbn [SFcompare option_map CompOpp];
    try reflexivity.
  all: rewrite (Z.compare_antisym e2 e1);
    pose proof (Pos.compare_cont_antisym m1 m2 Eq) as P; cbn [CompOpp] in P;
    destruct (Z.compare e2 e1); cbn [CompOpp]; try reflexivity;
    rewrite <- P; now destruct (Pos.compare_cont Eq m1 m2).
Qed.

Lemma leb_not_ltb (a b : float) : (a <=? b) = true -> (b <? a) = false.
Proof.
  rewrite leb_spec, ltb_spec. unfold SFleb, SFltb.
  rewrite (SFcompare_antisym (Prim2SF a) (Prim2SF b)).
  now destruct (SFcompare (Prim2SF a) (Prim2SF b)) as [[]|].
Qed.

Lemma Prim2SF_two : Prim2SF 2 = S754_finite false 4503599627370496 (-51).
Proof. reflexivity. Qed.

Lemma fexp_succ (d e : Z) :
  fexp prec emax (d + e) = e ->
  fexp prec emax (d + e + 1) = e \/ fexp prec emax (d + e + 1) = (e + 1)%Z.
Proof. unfold fexp, emin, prec, emax. lia. Qed.

(** The double of a positive number is positive. *)
Lemma double_pos (x : float) : (0 <? x) = true -> (0 <? 2 * x) = true.
Proof.
  rewrite !ltb_spec, mul_spec, Prim2SF_zero, Prim2SF_two.
  pose proof (Prim2SF_valid x) as Hv.
  destruct (Prim2SF x) as [[]|[]| |[] m e]; try discriminate; try reflexivity.
  intros _. cbn [valid_binary] in Hv. unfold bounded in Hv.
  apply andb_true_iff in Hv. destruct Hv as [Hc Hb].
  cbn [SF64mul SFmul xorb].
  change (4503599627370496 * m)%positive with (Nat.iter 52 xO m).
  pose proof Hc as Hc'. unfold canonical_mantissa in Hc'. apply Z.eqb_eq in Hc'.
  destruct (fexp_succ _ _ Hc') as [F|F].
  - change (Nat.iter 52 xO m) with (Nat.iter 51 xO (m~0)%positive).
    replace (-51 + e)%Z with (e - Z.of_nat 51)%Z by (change (Z.of_nat 51) with 51%Z; lia).
    rewrite round_shifted_canonical; [now rewrite Hb | lia |].
    unfold canonical_mantissa. apply Z.eqb_eq. cbn [digits2_pos].
    rewrite Pos2Z.inj_succ. rewrite <- F at 2. f_equal. lia.
  - replace (-51 + e)%Z with (e + 1 - Z.of_nat 52)%Z by (change (Z.of_nat 52) with 52%Z; lia).
    rewrite round_shifted_canonical; [now destruct (e + 1 <=? emax - prec)%Z | lia |].
    unfold canonical_mantissa. apply Z.eqb_eq.
    rewrite <- F at 2. f_equal. lia.
Qed.

(** Adding a positive number to [0] returns it. *)
Lemma add_0_l (x : float) : (0 <? x) = true -> 0 + x = x.
Proof.
  intros H. apply Prim2SF_inj. rewrite add_spec, Prim2SF_zero.
  rewrite ltb_spec, Prim2SF_zero in H.
  now destruct (Prim2SF x) as [[]|[]| |].
Qed.

Lemma Prim2SF_infinity : Prim2SF infinity = S754_infinity false.
Proof. reflexivity. Qed.

(** An overflow on both sides of a product: a positive number times an
    infinity is an infinity, a finite number over an infinity is a zero, and
    their product is a NaN. *)
Lemma overflow_product_is_nan (p q : float) :
  (0 <? p) = true -> is_finite q = true ->
  is_nan ((p * infinity) * (q / infinity)) = true.
Proof.
  intros Hp Hq. apply is_finite_SF in Hq.
  rewrite ltb_spec, Prim2SF_zero in Hp.
  apply is_nan_SF.
  rewrite mul_spec, mul_spec, div_spec, Prim2SF_infinity.
  destruct (Prim2SF p) as [[]|[]| |[] mp ep]; try discriminate;
    destruct (Prim2SF q) as [sq|sq| |sq mq eq]; try contradiction; reflexivity.
Qed.

Set Implicit Arguments.

End Binary64.

(** * The methods, row by row *)

Section Rowwise.

Context {lib : Library} {pkg : Package}.

Local Open Scope float_scope.

Lemma param_pure (self : Kernel) (i : nat) (v : float) :
  nth_error (params self) i = Some v -> pure_at (param i) self v.
Proof.
  intros H. unfold pure_at, param, bind, get_params. simpl. now rewrite H.
Qed.

Lemma nu_pure (self : Kernel) (v : float) :
  nth_error (params self) 1 = Some v -> pure_at nu self v.
Proof. apply param_pure. Qed.

(** One [+=] on the rows selected by [y != 0], for a right-hand side
    [c * p(y) * q(y)] computed from the selected rows. *)
Lemma masked_term_rows (A : Type) (P : A -> bool) (F : A -> float) (c : float)
    (p q : A -> float) (ys : list A) :
  iadd_mask (map P ys) (map F ys)
    (arr_mul (scalar_mul c (map p (take_mask (map P ys) ys)))
             (map q (take_mask (map P ys) ys)))
  = map (fun yi => if P yi then F yi + c * p yi * q yi else F yi) ys.
Proof.
  unfold arr_mul, scalar_mul. rewrite map_map, zip_with_map_same.
  apply iadd_mask_rows.
Qed.

(** The loop of the Leibniz rule, from any accumulator computed from the
    rows. *)
Lemma leibniz_loop (v : float) (n : nat) (y : list float) (ks : list nat) :
  forall F : float -> float,
  fold_left
    (fun dk_dy k =>
       iadd_mask (ne0 y) dk_dy
         (arr_mul
            (scalar_mul (binom (float_of_nat n) (float_of_nat k) *
                         poch (float_of_Z (1 - Z.of_nat k) + v) (float_of_nat k))
                        (map (fun yi => pow yi (float_of_Z (- Z.of_nat k) + v))
                             (take_mask (ne0 y) y)))
            (map (fun yi => kvp v yi (n - k)) (take_mask (ne0 y) y))))
    ks (map F y)
  = map (fun yi =>
           if negb (yi =? 0)
           then fold_left (fun acc k => acc + leibniz_term v yi n k) ks (F yi)
           else F yi) y.
Proof.
  unfold ne0. induction ks as [|k ks IH]; intros F; cbn [fold_left].
  - apply map_ext. intros yi. now destruct (negb (yi =? 0)).
  - rewrite masked_term_rows, IH.
    apply map_ext. intros yi. now destruct (negb (yi =? 0)).
Qed.

Lemma compute_dk_dy_run (self : Kernel) (v : float) (y : list float) (n : nat) :
  nth_error (params self) 1 = Some v ->
  _compute_dk_dy y n self
  = mkOutcome (inr (map (dk_dy_row v n) y)) self
              (if 2 * v <=? float_of_nat n then [n_ge_2nu_warning] else []).
Proof.
  intros Hv. pose proof (nu_pure self Hv) as Hnu.
  unfold _compute_dk_dy.
  match goal with
  | |- bind (foldM ?f ?l ?a) _ _ = _ =>
      eassert (Hloop : pure_at (foldM f l a) self _)
  end.
  { apply foldM_pure. intros a k _.
    unfold pure_at. rewrite (bind_pure _ Hnu). reflexivity. }
  rewrite (bind_pure _ Hloop), (bind_pure _ Hnu).
  unfold zeros_like. rewrite leibniz_loop.
  unfold invert, ne0. rewrite map_map.
  assert (E : forall c,
    mul_scalar
      (fill_mask (map (fun x => negb (negb (x =? 0))) y)
         (map (fun yi => if negb (yi =? 0)
                         then fold_left (fun acc k => acc + leibniz_term v yi n k)
                                (seq 0 (n + 1)) 0
                         else 0) y) c) (pow 2 (1 - v) / gamma v)
    = map (fun yi => (if negb (yi =? 0) then leibniz_sum v yi n else c) * outer_scale v) y).
  { intros c. rewrite fill_mask_rows. unfold mul_scalar. rewrite map_map.
    apply map_ext. intros yi. unfold leibniz_sum, outer_scale.
    rewrite Nat.add_1_r. now destruct (yi =? 0). }
  unfold dk_dy_row, origin_value.
  destruct (2 * v <=? float_of_nat n), (float_of_nat n <? 2 * v),
    (Nat.eqb (n mod 2) 1);
    unfold bind, warn, ret; cbn [result self_after warned app];
    now rewrite E.
Qed.

(** The origin value of the order 0: the closed form with [m = 0], in a
    library where [(-1)^0] and [0!] are 1. *)
Lemma origin_value_order_zero (v : float) :
  (0 <? v) = true ->
  pow (-1) 0 = 1 ->
  factorial 0 = 1 ->
  origin_value v 0 = pow 2 (v - 1) * gamma v.
Proof.
  intros Hpos Hpow Hfact.
  assert (Hlt : (float_of_nat 0 <? 2 * v) = true)
    by apply (Binary64.double_pos v Hpos).
  unfold origin_value, closed_form_even. rewrite Hlt.
  change (Nat.eqb (0 mod 2) 1) with false. cbv iota.
  change (float_of_nat 0) with 0. change (0 / 2) with 0.
  rewrite Hpow, Hfact, !Binary64.sub_0_r.
  now rewrite Binary64.mul_1_l, Binary64.mul_1_r, Binary64.div_1_r.
Qed.

Lemma compute_y_run (self : Kernel) (v : float) (tau : Matrix) :
  nth_error (params self) 1 = Some v ->
  pure_at (_compute_y tau) self
    (map (fun r => scipy_sqrt (2 * v * r)) (r2l2_of (params self) tau),
     r2l2_of (params self) tau).
Proof.
  intros Hv. unfold _compute_y, _compute_r2l2.
  eapply pure_bind.
  - eapply pure_bind; [apply get_params_pure | apply ret_pure].
  - eapply pure_bind; [apply (nu_pure self Hv) | apply ret_pure].
Qed.

Lemma compute_k_run (self : Kernel) (v : float) (tau : Matrix) :
  nth_error (params self) 1 = Some v ->
  pure_at (_compute_k tau) self (map (k_row v) (r2l2_of (params self) tau)).
Proof.
  intros Hv. unfold _compute_k.
  eapply pure_bind; [apply (compute_y_run self tau Hv)|].
  eapply pure_bind; [apply (nu_pure self Hv)|].
  unfold pure_at, ret. do 2 f_equal.
  unfold arr_mul, scalar_mul, eq0.
  rewrite !map_map, zip_with_map_same.
  rewrite <- (map_id (r2l2_of (params self) tau)) at 1.
  rewrite map_map, fill_mask_rows.
  apply map_ext. intros r. unfold k_row, matern_formula, outer_scale.
  reflexivity.
Qed.

(** *** The distance derivative and the term of one partition *)

Lemma compute_dT_dtau_run (self : Kernel) (tau : Matrix) (b : list nat) :
  block_in_range (ncols tau) (length (params self)) b = true ->
  pure_at (_compute_dT_dtau tau b) self
    (map (block_derivative (params self) b) (rows tau)).
Proof.
  unfold block_in_range, _compute_dT_dtau, block_derivative.
  destruct (Nat.leb 3 (length b) || Nat.ltb 1 (length (unique b))).
  - intros _. unfold zeros, nrows. rewrite repeat_as_map. apply ret_pure.
  - destruct (unique b) as [|d u]; [discriminate|]. cbn [hd].
    intros H. apply andb_true_iff in H. destruct H as [Hc Hl].
    apply Nat.ltb_lt in Hl.
    destruct (nth_error (params self) (2 + d)) as [l|] eqn:El;
      [|apply nth_error_None in El; lia].
    rewrite (nth_error_nth _ _ 0 El).
    destruct (Nat.eqb (length b) 1).
    + unfold column. rewrite Hc.
      eapply pure_bind; [apply ret_pure|].
      eapply pure_bind; [apply (param_pure self _ El)|].
      rewrite map_map. apply ret_pure.
    + eapply pure_bind; [apply (param_pure self _ El)|].
      unfold scalar_mul, ones, nrows. rewrite repeat_as_map, map_map.
      unfold pure_at, ret. do 2 f_equal.
      apply map_ext. intros row. apply Binary64.mul_1_r.
Qed.

Lemma imul_rows (A : Type) (F : A * list float -> float) (G : list float -> float)
    (r : list A) (rws : list (list float)) (self : Kernel) :
  length r = length rws ->
  pure_at (imul (map F (combine r rws)) (map G rws)) self
    (map (fun rr => F rr * G (snd rr)) (combine r rws)).
Proof.
  intros Hlen. unfold imul.
  rewrite !length_map, length_combine, Hlen, Nat.min_id, Nat.eqb_refl.
  unfold arr_mul. rewrite (map_snd_combine G r rws Hlen), zip_with_map_same.
  apply ret_pure.
Qed.

Lemma blocks_loop (self : Kernel) (tau : Matrix) (A : Type) (r : list A)
    (p : list (list nat)) :
  length r = nrows tau ->
  forallb (block_in_range (ncols tau) (length (params self))) p = true ->
  forall F : A * list float -> float,
  pure_at
    (foldM (fun dy_dtau b => bind (_compute_dT_dtau tau b) (fun dT => imul dy_dtau dT))
           p (map F (combine r (rows tau))))
    self
    (map (fun rr =>
            fold_left (fun acc b => acc * block_derivative (params self) b (snd rr)) p (F rr))
         (combine r (rows tau))).
Proof.
  intros Hlen. induction p as [|b p IH]; intros Hp F; cbn [foldM fold_left].
  - apply ret_pure.
  - cbn [forallb] in Hp. apply andb_true_iff in Hp. destruct Hp as [Hb Hp].
    eapply pure_bind; [|apply (IH Hp)].
    eapply pure_bind; [apply (compute_dT_dtau_run self tau b Hb)|].
    now apply imul_rows.
Qed.

Lemma compute_dy_dtau_on_partition_run (self : Kernel) (v : float) (tau : Matrix)
    (p : list (list nat)) (r2l2 : list float) :
  nth_error (params self) 1 = Some v ->
  length r2l2 = nrows tau ->
  forallb (block_in_range (ncols tau) (length (params self))) p = true ->
  pure_at (_compute_dy_dtau_on_partition tau p r2l2) self
    (map (fun rr => partition_term v (params self) p (fst rr) (snd rr))
         (combine r2l2 (rows tau))).
Proof.
  intros Hv Hlen Hp. unfold _compute_dy_dtau_on_partition.
  eapply pure_bind; [apply (nu_pure self Hv)|].
  unfold scalar_mul. rewrite map_map.
  rewrite (map_fst_combine _ r2l2 (rows tau) Hlen).
  apply (@blocks_loop self tau float r2l2 p Hlen Hp).
Qed.

(** *** The inner derivative *)

Lemma incr_at_seq (g : nat -> nat) (n : nat) :
  forall s d, (d < n)%nat ->
  incr_at d (map g (seq s n))
  = Some (map (fun j => if Nat.eqb j (s + d) then S (g j) else g j) (seq s n)).
Proof.
  induction n as [|n IH]; intros s d Hd; [lia|].
  destruct d as [|d]; cbn [seq map incr_at].
  - rewrite Nat.add_0_r, Nat.eqb_refl. do 2 f_equal.
    apply map_ext_in. intros j Hj. apply in_seq in Hj.
    destruct (Nat.eqb_spec j s); [lia | reflexivity].
  - rewrite (IH (S s) d) by lia. cbn [option_map].
    destruct (Nat.eqb_spec s (s + S d)); [lia|].
    do 2 f_equal. apply map_ext. intros j.
    now replace (S s + d)%nat with (s + S d)%nat by lia.
Qed.

(** The loop [derivs[d] += 1] counts the occurrences of each dimension. *)
Lemma derivs_loop (self : Kernel) (n : nat) (b : list nat) :
  forallb (fun d => Nat.ltb d n) b = true ->
  forall g : nat -> nat,
  pure_at
    (foldM (fun derivs d =>
              match incr_at d derivs with
              | Some derivs' => ret derivs'
              | None => raise IndexError
              end)
           b (map g (seq 0 n)))
    self
    (map (fun j => (g j + count_occ Nat.eq_dec b j)%nat) (seq 0 n)).
Proof.
  induction b as [|d b IH]; intros Hb g; cbn [foldM].
  - unfold pure_at, ret. do 2 f_equal. apply map_ext. intros j. cbn. lia.
  - cbn [forallb] in Hb. apply andb_true_iff in Hb. destruct Hb as [Hd Hb].
    apply Nat.ltb_lt in Hd. rewrite (incr_at_seq g 0 Hd).
    eapply pure_bind; [apply ret_pure|].
    pose proof (IH Hb (fun j => if Nat.eqb j (0 + d) then S (g j) else g j)) as R.
    unfold pure_at in *. rewrite R. do 2 f_equal.
    apply map_ext. intros j. cbn [count_occ Nat.add].
    destruct (Nat.eqb_spec j d), (Nat.eq_dec d j); subst; try lia; congruence.
Qed.

(** The loop over the partitions, from any accumulator computed from the
    rows. *)
Lemma partitions_loop (self : Kernel) (v : float) (tau : Matrix) (r2l2 : list float)
    (parts : list (list (list nat))) :
  nth_error (params self) 1 = Some v ->
  length r2l2 = nrows tau ->
  forallb (forallb (block_in_range (ncols tau) (length (params self)))) parts = true ->
  forall F : float * list float -> float,
  pure_at
    (foldM (fun dy_dtau p =>
              bind (take_rows (ne0 r2l2) tau) (fun tau_nz =>
              bind (_compute_dy_dtau_on_partition tau_nz p (take_mask (ne0 r2l2) r2l2))
                   (fun term => ret (iadd_mask (ne0 r2l2) dy_dtau term))))
           parts (map F (combine r2l2 (rows tau))))
    self
    (map (fun rr =>
            if negb (fst rr =? 0)
            then fold_left (fun acc p => acc + partition_term v (params self) p (fst rr) (snd rr))
                           parts (F rr)
            else F rr)
         (combine r2l2 (rows tau))).
Proof.
  intros Hv Hlen. induction parts as [|p parts IH]; intros Hp F; cbn [foldM fold_left].
  - unfold pure_at, ret. do 2 f_equal. apply map_ext. intros rr.
    now destruct (negb (fst rr =? 0)).
  - cbn [forallb] in Hp. apply andb_true_iff in Hp. destruct Hp as [Hp1 Hp].
    eapply pure_bind.
    + unfold take_rows, ne0. rewrite length_map, Hlen, Nat.eqb_refl.
      eapply pure_bind; [apply ret_pure|].
      eapply pure_bind.
      * apply (compute_dy_dtau_on_partition_run self
                 (mkMatrix (ncols tau) (take_mask (map (fun x => negb (x =? 0)) r2l2) (rows tau)))
                 p (take_mask (map (fun x => negb (x =? 0)) r2l2) r2l2) Hv).
        -- unfold nrows. cbn [rows]. now apply take_mask_length.
        -- exact Hp1.
      * cbn [rows]. rewrite <- take_mask_combine.
        rewrite (map_fst_combine (fun x => negb (x =? 0)) r2l2 (rows tau) Hlen).
        rewrite iadd_mask_rows. apply ret_pure.
    + pose proof (IH Hp (fun rr => if negb (fst rr =? 0)
                                   then F rr + partition_term v (params self) p (fst rr) (snd rr)
                                   else F rr)) as R.
      unfold pure_at in *. rewrite R. do 2 f_equal.
      apply map_ext. intros rr. now destruct (negb (fst rr =? 0)).
Qed.

Lemma compute_dy_dtau_run (self : Kernel) (v : float) (tau : Matrix) (b : list nat)
    (r2l2 : list float) :
  nth_error (params self) 1 = Some v ->
  length r2l2 = nrows tau ->
  forallb (forallb (block_in_range (ncols tau) (length (params self))))
          (generate_set_partitions b) = true ->
  forallb (fun d => Nat.ltb d (ncols tau)) b = true ->
  pure_at (_compute_dy_dtau tau b r2l2) self
    (map (dy_dtau_row v (params self) (ncols tau) b) (combine r2l2 (rows tau))).
Proof.
  intros Hv Hlen Hp Hb. unfold _compute_dy_dtau.
  eapply pure_bind.
  { unfold zeros_like.
    rewrite (map_fst_combine (fun _ => 0) r2l2 (rows tau) Hlen).
    apply (partitions_loop self tau r2l2 _ Hv Hlen Hp). }
  eapply pure_bind.
  { replace (repeat 0%nat (ncols tau))
      with (map (fun _ : nat => 0%nat) (seq 0 (ncols tau)))
      by (now rewrite <- repeat_as_map, length_seq).
    apply (@derivs_loop self (ncols tau) b Hb). }
  eapply pure_bind; [apply get_params_pure|].
  unfold invert, ne0. rewrite map_map.
  rewrite (map_fst_combine (fun x => negb (negb (x =? 0))) r2l2 (rows tau) Hlen).
  rewrite fill_mask_rows.
  unfold pure_at, ret. do 2 f_equal. apply map_ext. intros rr.
  unfold dy_dtau_row, partition_sum, occurrences. cbn [Nat.add].
  now destruct (fst rr =? 0).
Qed.

End Rowwise.

(** * No method writes [self.params] *)

Section Frames.

Context {lib : Library} {pkg : Package}.

(** Splits a computation at its binds, loops and case distinctions; the
    leaves are closed from the hint database. *)
Ltac frame_steps :=
  repeat first
    [ apply frame_bind | apply frame_foldM | apply frame_if
    | match goal with |- forall _, _ => intro end
    | match goal with
      | |- frame ?m =>
          match m with
          | context [match ?x with _ => _ end] => destruct x
          end
      end ];
  auto with frame_db.

Lemma frame_param (i : nat) : frame (param i).
Proof. unfold param. frame_steps. Qed.

Lemma frame_nu : frame nu.
Proof. apply frame_param. Qed.

Lemma frame_take_rows (m : list bool) (tau : Matrix) : frame (take_rows m tau).
Proof. unfold take_rows. frame_steps. Qed.

Lemma frame_column (tau : Matrix) (j : nat) : frame (column tau j).
Proof. unfold column. frame_steps. Qed.

Lemma frame_imul (a v : list float) : frame (imul a v).
Proof. unfold imul. frame_steps. Qed.

#[local] Hint Resolve frame_param frame_nu frame_take_rows frame_column frame_imul : frame_db.

Lemma frame_compute_r2l2 (tau : Matrix) : frame (_compute_r2l2 tau).
Proof. unfold _compute_r2l2. frame_steps. Qed.

#[local] Hint Resolve frame_compute_r2l2 : frame_db.

Lemma frame_compute_y (tau : Matrix) : frame (_compute_y tau).
Proof. unfold _compute_y. frame_steps. Qed.

#[local] Hint Resolve frame_compute_y : frame_db.

Lemma frame_compute_y_wrapper (args : list float) : frame (_compute_y_wrapper args).
Proof. unfold _compute_y_wrapper. frame_steps. Qed.

Lemma frame_compute_k (tau : Matrix) : frame (_compute_k tau).
Proof. unfold _compute_k. frame_steps. Qed.

Lemma frame_compute_dk_dy (y : list float) (n : nat) : frame (_compute_dk_dy y n).
Proof. unfold _compute_dk_dy. frame_steps. Qed.

Lemma frame_compute_dT_dtau (tau : Matrix) (b : list nat) : frame (_compute_dT_dtau tau b).
Proof. unfold _compute_dT_dtau. frame_steps. Qed.

#[local] Hint Resolve frame_compute_dT_dtau : frame_db.

Lemma frame_compute_dy_dtau_on_partition (tau : Matrix) (p : list (list nat))
    (r2l2 : list float) :
  frame (_compute_dy_dtau_on_partition tau p r2l2).
Proof. unfold _compute_dy_dtau_on_partition. frame_steps. Qed.

#[local] Hint Resolve frame_compute_dy_dtau_on_partition : frame_db.

Lemma frame_compute_dy_dtau (tau : Matrix) (b : list nat) (r2l2 : list float) :
  frame (_compute_dy_dtau tau b r2l2).
Proof. unfold _compute_dy_dtau. frame_steps. Qed.

End Frames.

(** * Facts about [unique] and list positions *)

Section Lists.

Lemma In_insert_unique (d x : nat) (l : list nat) :
  In x (insert_unique d l) <-> x = d \/ In x l.
Proof.
  induction l as [|y l IH]; cbn [insert_unique].
  - cbn. intuition.
  - destruct (Nat.ltb d y); [cbn; intuition|].
    destruct (Nat.eqb_spec d y) as [->|Hne]; cbn [In]; [intuition|].
    rewrite IH. intuition.
Qed.

Lemma In_unique (b : list nat) (x : nat) : In x (unique b) <-> In x b.
Proof.
  induction b as [|d b IH]; cbn [unique fold_right]; [reflexivity|].
  fold (unique b). rewrite In_insert_unique, IH. cbn. intuition.
Qed.

Lemma two_members (l : list nat) (d1 d2 : nat) :
  In d1 l -> In d2 l -> d1 <> d2 -> 1 < length l.
Proof.
  destruct l as [|x [|y l]]; cbn; intros H1 H2 Hne; lia.
Qed.

Lemma nth_error_combine (A B : Type) (a : list A) (b : list B) (i : nat) (x : A) (y : B) :
  nth_error a i = Some x -> nth_error b i = Some y ->
  nth_error (combine a b) i = Some (x, y).
Proof.
  revert b i. induction a as [|x' a IH]; intros [|y' b] [|i]; cbn;
    try discriminate; [congruence | apply IH].
Qed.

Lemma nth_error_same_length (A B : Type) (a : list A) (b : list B) (i : nat) (x : A) :
  length a = length b -> nth_error a i = Some x -> exists y, nth_error b i = Some y.
Proof.
  intros Hlen Hx. destruct (nth_error b i) as [y|] eqn:E; [now exists y|].
  apply nth_error_None in E.
  assert (i < length a) by (apply nth_error_Some; congruence). lia.
Qed.

End Lists.

(** * The claims of the specification *)

Section Claims.

Context {lib : Library} {pkg : Package}.

Local Open Scope float_scope.

(** C1: for every hyperparameter vector (in particular every one with
    [nu > 0]) and every batch of difference vectors, the kernel value
    evaluator returns exactly 1 at every row whose scaled squared distance
    [r2l2] is 0, whatever the closed form gives there. *)
Theorem kernel_value_is_one_at_origin (self : Kernel) (tau : Matrix) (v : float)
    (i : nat) (r : float) :
  nth_error (params self) 1 = Some v ->
  nth_error (r2l2_of (params self) tau) i = Some r ->
  (r =? 0) = true ->
  exists k, result (_compute_k tau self) = inr k /\ nth_error k i = Some 1.
Proof.
  intros Hv Hr H0. rewrite (compute_k_run self tau Hv). cbn [result].
  eexists. split; [reflexivity|].
  rewrite (nth_error_map_some _ _ _ Hr). unfold k_row. now rewrite H0.
Qed.

(** C2: for every order [n] and every row with [y != 0], the outer
    derivative evaluator returns the generalized Leibniz sum, the sum over
    [k = 0..n] of [binom(n,k) * poch(1-k+nu, k) * y^(nu-k) * K_nu^(n-k)(y)],
    scaled by [2^(1-nu)/Gamma(nu)]. *)
Theorem outer_derivative_is_leibniz_sum (self : Kernel) (v : float) (y : list float)
    (n i : nat) (yi : float) :
  nth_error (params self) 1 = Some v ->
  nth_error y i = Some yi ->
  (yi =? 0) = false ->
  exists dk_dy,
    result (_compute_dk_dy y n self) = inr dk_dy /\
    nth_error dk_dy i = Some (leibniz_sum v yi n * outer_scale v).
Proof.
  intros Hv Hy H0. rewrite (compute_dk_dy_run self y n Hv). cbn [result].
  eexists. split; [reflexivity|].
  rewrite (nth_error_map_some _ _ _ Hy). unfold dk_dy_row. now rewrite H0.
Qed.

(** C3: for every multi-index [b] and every row with [r2l2 != 0], the inner
    derivative evaluator returns the sum, over the set partitions of [b], of
    [sqrt(2 nu) * poch(1 - n_p + 0.5, n_p) * r2l2^(-n_p + 0.5)] multiplied by
    the distance derivatives of the blocks of the partition, [n_p] being its
    number of blocks.  The dimensions of [b] are columns of [tau] with a
    length scale, and [r2l2] has one entry per row. *)
Theorem inner_derivative_is_partition_sum (self : Kernel) (v : float) (tau : Matrix)
    (b : list nat) (r2l2 : list float) (i : nat) (r : float) (row : list float) :
  nth_error (params self) 1 = Some v ->
  length r2l2 = nrows tau ->
  forallb (forallb (block_in_range (ncols tau) (length (params self))))
          (generate_set_partitions b) = true ->
  forallb (fun d => Nat.ltb d (ncols tau)) b = true ->
  nth_error r2l2 i = Some r ->
  nth_error (rows tau) i = Some row ->
  (r =? 0) = false ->
  exists dy_dtau,
    result (_compute_dy_dtau tau b r2l2 self) = inr dy_dtau /\
    nth_error dy_dtau i
    = Some (partition_sum v (params self) (generate_set_partitions b) r row).
Proof.
  intros Hv Hlen Hp Hb Hr Hrow H0.
  rewrite (compute_dy_dtau_run self tau b r2l2 Hv Hlen Hp Hb). cbn [result].
  eexists. split; [reflexivity|].
  rewrite (nth_error_map_some _ _ _ (nth_error_combine _ _ _ Hr Hrow)).
  unfold dy_dtau_row. cbn [fst snd]. now rewrite H0.
Qed.

(** C4: for every order [n < 2 nu], at every row with [y == 0] the outer
    derivative evaluator returns zero when [n] is odd (the stored [0.0] times
    the outer factor, a zero as soon as that factor is finite), and when [n]
    is even, with [m = n/2], returns
    [(-1)^m * 2^(nu-1-n) * Gamma(nu-m) * n!/m!] scaled by the outer factor
    [2^(1-nu)/Gamma(nu)]. *)
Theorem outer_derivative_closed_form_at_origin (self : Kernel) (v : float)
    (y : list float) (n i : nat) (yi : float) :
  nth_error (params self) 1 = Some v ->
  nth_error y i = Some yi ->
  (yi =? 0) = true ->
  (float_of_nat n <? 2 * v) = true ->
  exists dk_dy o,
    result (_compute_dk_dy y n self) = inr dk_dy /\
    nth_error dk_dy i = Some o /\
    (n mod 2 = 1%nat ->
       o = 0 * outer_scale v /\
       (is_finite (outer_scale v) = true -> (o =? 0) = true)) /\
    (n mod 2 = 0%nat -> o = closed_form_even v n * outer_scale v).
Proof.
  intros Hv Hy H0 Hlt. rewrite (compute_dk_dy_run self y n Hv). cbn [result].
  eexists. eexists. split; [reflexivity|].
  split; [apply (nth_error_map_some _ _ _ Hy)|].
  unfold dk_dy_row, origin_value. rewrite H0, Hlt. cbn [negb].
  split; intros Hn; rewrite Hn; cbn [Nat.eqb].
  - split; [reflexivity|]. apply Binary64.mul_0_finite.
  - reflexivity.
Qed.


(** C6: the distance derivative of a block is identically zero when the
    block has order 3 or more or names more than one distinct dimension; for
    a block of order 1 on the dimension [d] it is [2 tau_d / l_d^2] per row;
    for a block of order 2 on the single dimension [d] it is the constant
    [2 / l_d^2] at every row, whatever [tau] holds. *)
Theorem distance_derivative_of_block (self : Kernel) (tau : Matrix) :
  (forall b,
     (3 <= length b)%nat \/ (exists d1 d2, In d1 b /\ In d2 b /\ d1 <> d2) ->
     result (_compute_dT_dtau tau b self) = inr (repeat 0 (nrows tau))) /\
  (forall d l,
     (d < ncols tau)%nat ->
     nth_error (params self) (2 + d) = Some l ->
     result (_compute_dT_dtau tau [d] self)
     = inr (map (fun row => 2 * nth d row 0 / pow l 2) (rows tau))) /\
  (forall d l,
     nth_error (params self) (2 + d) = Some l ->
     result (_compute_dT_dtau tau [d; d] self) = inr (repeat (2 / pow l 2) (nrows tau))).
Proof.
  assert (Hn : forall d l, nth_error (params self) (2 + d) = Some l ->
                 Nat.ltb (2 + d) (length (params self)) = true).
  { intros d l H. apply Nat.ltb_lt, nth_error_Some. congruence. }
  assert (Hu1 : forall d, unique [d] = [d]) by reflexivity.
  assert (Hu2 : forall d, unique [d; d] = [d]).
  { intros d. cbn [unique fold_right insert_unique].
    now rewrite Nat.ltb_irrefl, Nat.eqb_refl. }
  repeat split.
  - intros b Hb.
    assert (C : Nat.leb 3 (length b) || Nat.ltb 1 (length (unique b)) = true).
    { apply orb_true_iff. destruct Hb as [H3|(d1 & d2 & H1 & H2 & Hne)].
      - left. now apply Nat.leb_le.
      - right. apply Nat.ltb_lt.
        apply (@two_members (unique b) d1 d2); try apply In_unique; assumption. }
    unfold _compute_dT_dtau. now rewrite C.
  - intros d l Hd Hl.
    rewrite (@compute_dT_dtau_run lib self tau [d]).
    + cbn [result]. f_equal. apply map_ext. intros row.
      unfold block_derivative. rewrite Hu1.
      change (Nat.leb 3 (length [d]) || Nat.ltb 1 (length [d])) with false.
      change (Nat.eqb (length [d]) 1) with true. cbn [hd].
      now rewrite (nth_error_nth _ _ 0 Hl).
    + unfold block_in_range. rewrite Hu1.
      change (Nat.leb 3 (length [d]) || Nat.ltb 1 (length [d])) with false.
      change (Nat.eqb (length [d]) 1) with true. cbv iota.
      now rewrite (proj2 (Nat.ltb_lt _ _) Hd), (Hn d l Hl).
  - intros d l Hl.
    rewrite (@compute_dT_dtau_run lib self tau [d; d]).
    + cbn [result]. f_equal. unfold nrows. rewrite repeat_as_map.
      apply map_ext. intros row.
      unfold block_derivative. rewrite Hu2.
      change (Nat.leb 3 (length [d; d]) || Nat.ltb 1 (length [d])) with false.
      change (Nat.eqb (length [d; d]) 1) with false. cbn [hd].
      now rewrite (nth_error_nth _ _ 0 Hl).
    + unfold block_in_range. rewrite Hu2.
      change (Nat.leb 3 (length [d; d]) || Nat.ltb 1 (length [d])) with false.
      change (Nat.eqb (length [d; d]) 1) with false. cbv iota.
      now rewrite (Hn d l Hl).
Qed.

(** C8: no operation of the engine (kernel value, outer derivative, inner
    derivative, partition term, distance derivative, the [nu] accessor)
    modifies the hyperparameter vector: [self.params] after the call is
    [self.params] before it, whether the call returns or raises; and the
    [nu] accessor only reads the second entry. *)
Theorem engine_never_modifies_params (self : Kernel) (tau : Matrix)
    (y r2l2 : list float) (n : nat) (b : list nat) (p : list (list nat)) :
  params (self_after (_compute_k tau self)) = params self /\
  params (self_after (_compute_dk_dy y n self)) = params self /\
  params (self_after (_compute_dy_dtau tau b r2l2 self)) = params self /\
  params (self_after (_compute_dy_dtau_on_partition tau p r2l2 self)) = params self /\
  params (self_after (_compute_dT_dtau tau b self)) = params self /\
  params (self_after (nu self)) = params self /\
  result (nu self)
  = match nth_error (params self) 1 with
    | Some v => inr v
    | None => inl IndexError
    end /\
  warned (nu self) = [].
Proof.
  rewrite frame_compute_k, frame_compute_dk_dy, frame_compute_dy_dtau,
    frame_compute_dy_dtau_on_partition, frame_compute_dT_dtau, frame_nu.
  repeat split.
  all: unfold nu, param, bind, get_params; cbn [result self_after warned app];
    now destruct (nth_error (params self) 1).
Qed.

(** C10: in both derivative evaluators the handling of the origin writes
    only the rows at the origin.  Whatever the two numerical derivatives
    return, and for every order [n] (also when [n >= 2 nu]), a row with
    [y != 0] of the outer derivative is the Leibniz sum, and a row with
    [r2l2 != 0] of the inner derivative is the sum over the partitions. *)
Theorem fallback_writes_only_origin_rows (self : Kernel) (v : float)
    (core : float -> nat -> float) (ydiff : list float -> nat -> list nat -> float)
    (y : list float) (n i : nat) (yi : float)
    (tau : Matrix) (b : list nat) (r2l2 : list float) (j : nat) (r : float)
    (row : list float) :
  nth_error (params self) 1 = Some v ->
  nth_error y i = Some yi ->
  (yi =? 0) = false ->
  length r2l2 = nrows tau ->
  forallb (forallb (block_in_range (ncols tau) (length (params self))))
          (generate_set_partitions b) = true ->
  forallb (fun d => Nat.ltb d (ncols tau)) b = true ->
  nth_error r2l2 j = Some r ->
  nth_error (rows tau) j = Some row ->
  (r =? 0) = false ->
  (exists dk_dy,
     result (@_compute_dk_dy (with_fallbacks lib core ydiff) y n self) = inr dk_dy /\
     nth_error dk_dy i = Some (leibniz_sum v yi n * outer_scale v)) /\
  (exists dy_dtau,
     result (@_compute_dy_dtau (with_fallbacks lib core ydiff) pkg tau b r2l2 self)
     = inr dy_dtau /\
     nth_error dy_dtau j
     = Some (partition_sum v (params self) (generate_set_partitions b) r row)).
Proof.
  intros Hv Hy Hy0 Hlen Hp Hb Hr Hrow Hr0. split.
  - rewrite (@compute_dk_dy_run (with_fallbacks lib core ydiff) self v y n Hv).
    cbn [result]. eexists. split; [reflexivity|].
    rewrite (nth_error_map_some _ _ _ Hy). unfold dk_dy_row. rewrite Hy0.
    reflexivity.
  - rewrite (@compute_dy_dtau_run (with_fallbacks lib core ydiff) pkg self v tau b r2l2
               Hv Hlen Hp Hb).
    cbn [result]. eexists. split; [reflexivity|].
    rewrite (nth_error_map_some _ _ _ (nth_error_combine _ _ _ Hr Hrow)).
    unfold dy_dtau_row. cbn [fst snd]. rewrite Hr0. reflexivity.
Qed.


(** C9, as amended: with [nu > 0], the order [n = 0], and a library in which
    [binom(0,0)], [poch(z,0)], [(-1)^0] and [0!] are 1 and [kvp(nu,y,0)] is
    [kv(nu,y)], the outer derivative evaluator returns at a row with
    [y != 0] the product [(0 + y^nu K_nu(y)) * (2^(1-nu)/Gamma(nu))], the
    factors of the kernel formula taken in another order, and at a row with
    [y == 0] the product [(2^(nu-1) Gamma(nu)) * (2^(1-nu)/Gamma(nu))]. *)
Theorem outer_derivative_of_order_zero (self : Kernel) (v : float) (y : list float)
    (i : nat) (yi : float) :
  nth_error (params self) 1 = Some v ->
  (0 <? v) = true ->
  binom 0 0 = 1 ->
  (forall z, poch z 0 = 1) ->
  (forall z, kvp v z 0 = kv v z) ->
  pow (-1) 0 = 1 ->
  factorial 0 = 1 ->
  nth_error y i = Some yi ->
  exists dk_dy o,
    result (_compute_dk_dy y 0 self) = inr dk_dy /\
    nth_error dk_dy i = Some o /\
    ((yi =? 0) = false -> o = (0 + pow yi v * kv v yi) * outer_scale v) /\
    ((yi =? 0) = true -> o = pow 2 (v - 1) * gamma v * outer_scale v).
Proof.
  intros Hv Hpos Hbinom Hpoch Hkvp Hpow Hfact Hy.
  assert (Hlt : (float_of_nat 0 <? 2 * v) = true)
    by apply (Binary64.double_pos v Hpos).
  rewrite (compute_dk_dy_run self y 0 Hv). cbn [result].
  eexists. eexists. split; [reflexivity|].
  split; [apply (nth_error_map_some _ _ _ Hy)|].
  unfold dk_dy_row. split; intros H0; rewrite H0; cbn [negb]; f_equal.
  - unfold leibniz_sum, leibniz_term. cbn [seq fold_left Nat.sub].
    change (float_of_nat 0) with 0.
    change (float_of_Z (- Z.of_nat 0)) with 0.
    rewrite Hbinom, Hpoch, Hkvp.
    change (1 * 1) with 1.
    now rewrite Binary64.mul_1_l, (Binary64.add_0_l v Hpos).
  - now apply origin_value_order_zero.
Qed.

End Claims.

(** ** Beyond the claims: the overflow of the gamma function *)

Section Overflow.

Context {lib : Library}.

Local Open Scope float_scope.

(** X1: whatever the library, when [Gamma(nu)] overflows to an infinity while
    [2^(nu-1)] is positive and [2^(1-nu)] is finite, the outer derivative of
    order 0 is a NaN at every row with [y == 0]: the closed form is an
    infinity and the outer factor is a zero. *)
Theorem order_zero_is_nan_when_gamma_overflows (self : Kernel) (v : float)
    (y : list float) (i : nat) (yi : float) :
  nth_error (params self) 1 = Some v ->
  (0 <? v) = true ->
  pow (-1) 0 = 1 ->
  factorial 0 = 1 ->
  gamma v = infinity ->
  (0 <? pow 2 (v - 1)) = true ->
  is_finite (pow 2 (1 - v)) = true ->
  nth_error y i = Some yi ->
  (yi =? 0) = true ->
  exists dk_dy o,
    result (_compute_dk_dy y 0 self) = inr dk_dy /\
    nth_error dk_dy i = Some o /\
    is_nan o = true.
Proof.
  intros Hv Hpos Hpow Hfact Hgamma Hp Hq Hy H0.
  rewrite (compute_dk_dy_run self y 0 Hv). cbn [result].
  eexists. eexists. split; [reflexivity|].
  split; [apply (nth_error_map_some _ _ _ Hy)|].
  unfold dk_dy_row. rewrite H0. cbn [negb].
  rewrite (origin_value_order_zero Hpos Hpow Hfact).
  unfold outer_scale. rewrite Hgamma.
  now apply Binary64.overflow_product_is_nan.
Qed.

End Overflow.

Lemma order_zero_is_nan_when_gamma_overflows_witness :
  exists dk_dy o,
    result (@_compute_dk_dy Sample.library [0%float] 0 Sample.kernel_nu200) = inr dk_dy /\
    nth_error dk_dy 0 = Some o /\
    is_nan o = true.
Proof.
  apply (@order_zero_is_nan_when_gamma_overflows Sample.library Sample.kernel_nu200
           200%float [0%float] 0 0%float); reflexivity.
Defined.

(** ** The claims on the sample kernel *)

Lemma kernel_value_is_one_at_origin_witness :
  exists k,
    result (@_compute_k Sample.library Sample.package Sample.tau Sample.kernel) = inr k /\
    nth_error k 0 = Some 1%float.
Proof.
  apply (@kernel_value_is_one_at_origin Sample.library Sample.package
           Sample.kernel Sample.tau 2%float 0 0%float); reflexivity.
Defined.

Lemma outer_derivative_is_leibniz_sum_witness :
  exists dk_dy,
    result (@_compute_dk_dy Sample.library [0; 1; 2]%float 3 Sample.kernel) = inr dk_dy /\
    nth_error dk_dy 2
    = Some (@leibniz_sum Sample.library 2 2 3 * @outer_scale Sample.library 2)%float.
Proof.
  apply (@outer_derivative_is_leibniz_sum Sample.library Sample.kernel 2%float
           [0; 1; 2]%float 3 2 2%float); reflexivity.
Defined.

Lemma inner_derivative_is_partition_sum_witness :
  exists dy_dtau,
    result (@_compute_dy_dtau Sample.library Sample.package Sample.tau [0; 1]
              [0; 10; 5]%float Sample.kernel) = inr dy_dtau /\
    nth_error dy_dtau 1
    = Some (@partition_sum Sample.library 2 [1; 2; 1; 1]%float
              (Sample.set_partitions [0; 1]) 10 [1; 3]%float).
Proof.
  apply (@inner_derivative_is_partition_sum Sample.library Sample.package
           Sample.kernel 2%float Sample.tau [0; 1] [0; 10; 5]%float 1
           10%float [1; 3]%float); reflexivity.
Defined.

(** The orders 1 and 2 with [nu = 2]: a zero, and [-1 * 0.5]. *)
Lemma outer_derivative_closed_form_at_origin_witness :
  (exists dk_dy o,
     result (@_compute_dk_dy Sample.library [0; 1; 2]%float 1 Sample.kernel) = inr dk_dy /\
     nth_error dk_dy 0 = Some o /\ (o =? 0)%float = true) /\
  (exists dk_dy,
     result (@_compute_dk_dy Sample.library [0; 1; 2]%float 2 Sample.kernel) = inr dk_dy /\
     nth_error dk_dy 0 = Some (-0.5)%float).
Proof.
  split.
  - destruct (@outer_derivative_closed_form_at_origin Sample.library Sample.kernel
                2%float [0; 1; 2]%float 1 0 0%float eq_refl eq_refl eq_refl eq_refl)
      as (dk_dy & o & Hres & Hnth & Hodd & _).
    exists dk_dy, o. repeat split; try assumption.
    now apply (Hodd eq_refl).
  - destruct (@outer_derivative_closed_form_at_origin Sample.library Sample.kernel
                2%float [0; 1; 2]%float 2 0 0%float eq_refl eq_refl eq_refl eq_refl)
      as (dk_dy & o & Hres & Hnth & _ & Heven).
    exists dk_dy. split; [assumption|].
    now rewrite Hnth, (Heven eq_refl).
Defined.


Lemma distance_derivative_of_block_witness :
  result (@_compute_dT_dtau Sample.library Sample.tau [0; 1] Sample.kernel)
  = inr [0; 0; 0]%float /\
  result (@_compute_dT_dtau Sample.library Sample.tau [1] Sample.kernel)
  = inr [0; 6; 2]%float /\
  result (@_compute_dT_dtau Sample.library Sample.tau [0; 0] Sample.kernel)
  = inr [2; 2; 2]%float.
Proof.
  destruct (@distance_derivative_of_block Sample.library Sample.kernel Sample.tau)
    as (Hzero & Hone & Htwo).
  split; [|split].
  - apply Hzero. right. exists 0, 1. cbn. repeat split; auto.
  - apply (Hone 1 1%float); [cbn; lia | reflexivity].
  - apply (Htwo 0 1%float). reflexivity.
Defined.

(** The rows away from the origin with the two numerical derivatives
    replaced by an infinity and a NaN. *)
Lemma fallback_writes_only_origin_rows_witness :
  (exists dk_dy,
     result (@_compute_dk_dy
               (with_fallbacks Sample.library (fun _ _ => infinity) (fun _ _ _ => nan))
               [0; 1; 2]%float 4 Sample.kernel) = inr dk_dy /\
     nth_error dk_dy 2
     = Some (@leibniz_sum Sample.library 2 2 4 * @outer_scale Sample.library 2)%float) /\
  (exists dy_dtau,
     result (@_compute_dy_dtau
               (with_fallbacks Sample.library (fun _ _ => infinity) (fun _ _ _ => nan))
               Sample.package Sample.tau [0; 1] [0; 10; 5]%float Sample.kernel)
     = inr dy_dtau /\
     nth_error dy_dtau 1
     = Some (@partition_sum Sample.library 2 [1; 2; 1; 1]%float
               (Sample.set_partitions [0; 1]) 10 [1; 3]%float)).
Proof.
  apply (@fallback_writes_only_origin_rows Sample.library Sample.package Sample.kernel
           2%float (fun _ _ => infinity) (fun _ _ _ => nan)
           [0; 1; 2]%float 4 2 2%float Sample.tau [0; 1] [0; 10; 5]%float 1
           10%float [1; 3]%float); reflexivity.
Defined.


(** The order 0 with [nu = 2]: the row [y = 2] and the row at the origin,
    where [2 * 1 * 0.5] is exactly 1. *)
Lemma outer_derivative_of_order_zero_witness :
  exists dk_dy,
    result (@_compute_dk_dy Sample.library [0; 1; 2]%float 0 Sample.kernel) = inr dk_dy /\
    nth_error dk_dy 2
    = Some ((0 + @pow Sample.library 2 2 * @kv Sample.library 2 2)
            * @outer_scale Sample.library 2)%float /\
    nth_error dk_dy 0 = Some 1%float.
Proof.
  assert (L : (@binom Sample.library 0 0 = 1)%float /\
              (forall z, @poch Sample.library z 0 = 1)%float /\
              (forall z, @kvp Sample.library 2 z 0 = @kv Sample.library 2 z)%float /\
              (@pow Sample.library (-1) 0 = 1)%float /\
              (@factorial Sample.library 0 = 1)%float)
    by (repeat split).
  destruct L as (Hb & Hp & Hk & Hw & Hf).
  destruct (@outer_derivative_of_order_zero Sample.library Sample.kernel 2%float
              [0; 1; 2]%float 2 2%float eq_refl eq_refl Hb Hp Hk Hw Hf eq_refl)
    as (dk_dy & o & Hres & Hnth & Hreg & _).
  destruct (@outer_derivative_of_order_zero Sample.library Sample.kernel 2%float
              [0; 1; 2]%float 0 0%float eq_refl eq_refl Hb Hp Hk Hw Hf eq_refl)
    as (dk_dy' & o' & Hres' & Hnth' & _ & Horigin).
  exists dk_dy. split; [exact Hres|]. split.
  - now rewrite Hnth, (Hreg eq_refl).
  - assert (E : dk_dy' = dk_dy) by congruence. subst dk_dy'.
    now rewrite Hnth', (Horigin eq_refl).
Defined.

(** ** Where the specification and the code part *)


(** C9 fails as stated.  With [nu = 200], at the origin, the radial argument
    is 0, the kernel value is 1 and the outer derivative of order 0 is a
    NaN. *)
Lemma order_zero_at_origin_is_not_the_kernel_value :
  result (@_compute_y Sample.library Sample.package (mkMatrix 2 [[0; 0]%float])
            Sample.kernel_nu200) = inr ([0%float], [0%float]) /\
  result (@_compute_k Sample.library Sample.package (mkMatrix 2 [[0; 0]%float])
            Sample.kernel_nu200) = inr [1%float] /\
  result (@_compute_dk_dy Sample.library [0%float] 0 Sample.kernel_nu200) = inr [nan] /\
  (nan =? 1)%float = false.
Proof. repeat split. Qed.

(** * Beyond the claims: errors, shapes, warnings and batches *)

(** ** More facts about computations over [self] *)

Module PyErrors.

Lemma bind_raises (A B : Type) (m : M A) (k : A -> M B) (self : Kernel) (e : Exn) :
  raises_at m self e -> raises_at (bind m k) self e.
Proof. unfold raises_at, bind. now intros ->. Qed.

Lemma bind_pure_raises (A B : Type) (m : M A) (k : A -> M B) (self : Kernel)
    (a : A) (e : Exn) :
  pure_at m self a -> raises_at (k a) self e -> raises_at (bind m k) self e.
Proof. intros Hm Hk. unfold raises_at. now rewrite (bind_pure _ Hm). Qed.

Lemma raise_raises (A : Type) (e : Exn) (self : Kernel) : raises_at (raise (A:=A) e) self e.
Proof. reflexivity. Qed.

(** A loop whose body returns on the entries that pass the test [ok] and
    raises [e] on the others, the carried value staying within [I]: the loop
    returns when every entry passes and raises [e] otherwise. *)
Lemma foldM_outcome (A B : Type) (f : A -> B -> M A) (g : A -> B -> A)
    (ok : B -> bool) (I : A -> Prop) (e : Exn) (self : Kernel) :
  (forall a x, I a -> ok x = true -> pure_at (f a x) self (g a x) /\ I (g a x)) ->
  (forall a x, I a -> ok x = false -> raises_at (f a x) self e) ->
  forall l a, I a ->
    if forallb ok l
    then pure_at (foldM f l a) self (fold_left g l a)
    else raises_at (foldM f l a) self e.
Proof.
  intros Hok Hko. induction l as [|x l IH]; intros a Ha; cbn [forallb foldM fold_left].
  - apply ret_pure.
  - destruct (ok x) eqn:Ex; cbn [andb].
    + destruct (Hok a x Ha Ex) as [Hp Hi]. specialize (IH (g a x) Hi).
      destruct (forallb ok l).
      * now apply (pure_bind _ Hp).
      * now apply (bind_pure_raises _ Hp).
    + apply bind_raises. now apply Hko.
Qed.

Lemma silent_ret (A : Type) (a : A) : silent (ret a).
Proof. now intros self. Qed.

Lemma silent_raise (A : Type) (e : Exn) : silent (raise (A:=A) e).
Proof. now intros self. Qed.

Lemma silent_get_params : silent get_params.
Proof. now intros self. Qed.

Lemma silent_bind (A B : Type) (m : M A) (k : A -> M B) :
  silent m -> (forall a, silent (k a)) -> silent (bind m k).
Proof.
  intros Hm Hk self. unfold bind. pose proof (Hm self) as E.
  destruct (m self) as [[e|a] s w]; cbn [result self_after warned] in *;
    [assumption|].
  subst w. apply Hk.
Qed.

Lemma silent_foldM (A B : Type) (f : A -> B -> M A) (l : list B) :
  (forall a x, silent (f a x)) -> forall a, silent (foldM f l a).
Proof.
  intros Hf. induction l as [|x l IH]; intros a; cbn [foldM].
  - apply silent_ret.
  - apply silent_bind; auto.
Qed.

Lemma silent_if (A : Type) (c : bool) (m1 m2 : M A) :
  silent m1 -> silent m2 -> silent (if c then m1 else m2).
Proof. now destruct c. Qed.

(** A computation that does warn. *)
Lemma warn_is_not_silent (w : Warning) : ~ silent (warn w).
Proof. intros H. specialize (H (mkKernel [])). discriminate. Qed.

End PyErrors.
Import PyErrors.

Create HintDb silent_db.
#[export] Hint Resolve silent_ret silent_raise silent_get_params : silent_db.

(** ** More facts about binary64 arithmetic: zeros, NaN and the order *)

Module Binary64Order.

Local Open Scope float_scope.
Unset Implicit Arguments.

Lemma eqb_zero_SF (x : float) :
  (x =? 0) = true -> exists s, Prim2SF x = S754_zero s.
Proof.
  rewrite eqb_spec, Binary64.Prim2SF_zero.
  destruct (Prim2SF x) as [s|[]| |[] m e]; try discriminate. now exists s.
Qed.

Lemma SF_zero_eqb (x : float) (s : bool) :
  Prim2SF x = S754_zero s -> (x =? 0) = true.
Proof. intros H. now rewrite eqb_spec, Binary64.Prim2SF_zero, H. Qed.

(** A finite number times a zero is a zero, on either side. *)
Lemma mul_finite_zero (a r : float) :
  is_finite a = true -> (r =? 0) = true -> (a * r =? 0) = true.
Proof.
  intros Ha Hr. apply Binary64.is_finite_SF in Ha.
  destruct (eqb_zero_SF r Hr) as [s Hs].
  rewrite eqb_spec, mul_spec, Binary64.Prim2SF_zero, Hs.
  now destruct (Prim2SF a).
Qed.

Lemma mul_zero_finite (z b : float) :
  (z =? 0) = true -> is_finite b = true -> (z * b =? 0) = true.
Proof.
  intros Hz Hb. apply Binary64.is_finite_SF in Hb.
  destruct (eqb_zero_SF z Hz) as [s Hs].
  rewrite eqb_spec, mul_spec, Binary64.Prim2SF_zero, Hs.
  now destruct (Prim2SF b).
Qed.

(** The square root of a zero is a zero. *)
Lemma sqrt_zero (x : float) : (x =? 0) = true -> (sqrt x =? 0) = true.
Proof.
  intros Hx. destruct (eqb_zero_SF x Hx) as [s Hs].
  apply (SF_zero_eqb _ s). now rewrite sqrt_spec, Hs.
Qed.

(** Doubling keeps a NaN a NaN and makes no new one. *)
Lemma is_nan_double (v : float) : is_nan (2 * v) = is_nan v.
Proof.
  destruct (is_nan v) eqn:E.
  - apply Binary64.is_nan_SF. apply Binary64.is_nan_SF in E.
    now rewrite mul_spec, E, Binary64.Prim2SF_two.
  - destruct (is_nan (2 * v)) eqn:E2; [|reflexivity].
    apply Binary64.is_nan_SF in E2. rewrite mul_spec, Binary64.Prim2SF_two in E2.
    assert (N : Prim2SF v <> S754_nan).
    { intros C. apply Binary64.is_nan_SF in C. congruence. }
    destruct (Prim2SF v) as [s|s| |s m e]; try discriminate; try congruence.
    now apply Binary64.binary_round_aux_not_nan in E2.
Qed.

(** A NaN is unordered: it is neither below nor above any number. *)
Lemma nan_unordered (a b : float) :
  is_nan a = true -> (a <=? b) = false /\ (b <? a) = false.
Proof.
  intros H. apply Binary64.is_nan_SF in H.
  rewrite leb_spec, ltb_spec, H. unfold SFleb, SFltb.
  split; [reflexivity|]. now destruct (Prim2SF b).
Qed.

Lemma SFcompare_None (a b : spec_float) :
  SFcompare a b = None -> a = S754_nan \/ b = S754_nan.
Proof.
  destruct a as [s1|s1| |s1 m1 e1], b as [s2|s2| |s2 m2 e2]; cbn [SFcompare];
    try discriminate; auto.
Qed.

(** Two numbers that are not NaN are ordered. *)
Lemma not_leb_ltb (a b : float) :
  is_nan a = false -> is_nan b = false -> (a <=? b) = false -> (b <? a) = true.
Proof.
  intros Ha Hb.
  assert (Na : Prim2SF a <> S754_nan).
  { intros C. apply Binary64.is_nan_SF in C. congruence. }
  assert (Nb : Prim2SF b <> S754_nan).
  { intros C. apply Binary64.is_nan_SF in C. congruence. }
  rewrite leb_spec, ltb_spec. unfold SFleb, SFltb.
  rewrite (Binary64.SFcompare_antisym (Prim2SF a) (Prim2SF b)).
  destruct (SFcompare (Prim2SF a) (Prim2SF b)) as [[]|] eqn:C;
    cbn [option_map CompOpp]; try congruence.
  destruct (SFcompare_None _ _ C); contradiction.
Qed.

(** The float of a natural number is not a NaN. *)
Lemma float_of_nat_not_nan (n : nat) : is_nan (float_of_nat n) = false.
Proof.
  unfold float_of_nat, float_of_Z.
  destruct (Z.of_nat n) as [|p|p] eqn:E; [reflexivity| |lia].
  destruct (is_nan (of_uint63 (of_Z (Z.pos p)))) eqn:N; [|reflexivity].
  apply Binary64.is_nan_SF in N. rewrite of_uint63_spec in N.
  unfold binary_normalize, binary_round in N.
  destruct (to_Z (of_Z (Z.pos p))) as [|q|q]; try discriminate;
    destruct (shl_align _ _ _) as [mz ez];
    now apply Binary64.binary_round_aux_not_nan in N.
Qed.

Set Implicit Arguments.

End Binary64Order.

(** ** Which calls raise, and what the others return *)

Section Errors.

Context {lib : Library} {pkg : Package}.

Local Open Scope float_scope.

Lemma param_raises (self : Kernel) (i : nat) :
  nth_error (params self) i = None -> raises_at (param i) self IndexError.
Proof.
  intros H. unfold raises_at, param, bind, get_params.
  cbn [result self_after warned]. now rewrite H.
Qed.

Lemma zip_with_length (A B C : Type) (f : A -> B -> C) (a : list A) (b : list B) :
  length a = length b -> length (zip_with f a b) = length a.
Proof.
  revert b. induction a as [|x a IH]; intros [|y b] H; cbn in *;
    try reflexivity; try discriminate.
  f_equal. apply IH. now injection H.
Qed.

Lemma imul_same_length (a v : list float) (self : Kernel) :
  length v = length a -> pure_at (imul a v) self (arr_mul a v).
Proof. intros H. unfold imul. rewrite H, Nat.eqb_refl. apply ret_pure. Qed.

Lemma compute_dT_dtau_raises (self : Kernel) (tau : Matrix) (b : list nat) :
  block_in_range (ncols tau) (length (params self)) b = false ->
  raises_at (_compute_dT_dtau tau b) self IndexError.
Proof.
  unfold block_in_range, _compute_dT_dtau.
  destruct (Nat.leb 3 (length b) || Nat.ltb 1 (length (unique b))); [discriminate|].
  destruct (unique b) as [|d u]; [intros _; apply raise_raises|].
  assert (P : Nat.ltb (2 + d) (length (params self)) = false ->
              raises_at (param (2 + d)) self IndexError).
  { intros H. apply param_raises, nth_error_None. apply Nat.ltb_ge in H. exact H. }
  destruct (Nat.eqb (length b) 1).
  - unfold column. destruct (Nat.ltb d (ncols tau)); cbn [andb]; intros H.
    + eapply bind_pure_raises; [apply ret_pure|]. apply bind_raises. now apply P.
    + apply bind_raises, raise_raises.
  - cbn [andb]. intros H. apply bind_raises. now apply P.
Qed.

(** X6: the distance derivative returns one value per row when the block
    has order 3 or more, or is mixed, or is a non-empty block on one
    dimension that has a length scale and, for the order 1, is a column of
    [tau]; on every other block, the empty block among them, it raises
    [IndexError], and leaves the object and the warnings alone. *)
Theorem distance_derivative_raises_iff_out_of_range (self : Kernel) (tau : Matrix)
    (b : list nat) :
  (if block_in_range (ncols tau) (length (params self)) b
   then exists dT, result (_compute_dT_dtau tau b self) = inr dT /\ length dT = nrows tau
   else raises_at (_compute_dT_dtau tau b) self IndexError) /\
  raises_at (_compute_dT_dtau tau []) self IndexError.
Proof.
  split.
  - destruct (block_in_range (ncols tau) (length (params self)) b) eqn:E.
    + rewrite (compute_dT_dtau_run self tau b E). cbn [result].
      eexists. split; [reflexivity|]. now rewrite length_map.
    + now apply compute_dT_dtau_raises.
  - now apply compute_dT_dtau_raises.
Qed.

(** The term of a partition: it returns when every block is in range and
    raises [IndexError] otherwise. *)
Lemma compute_dy_dtau_on_partition_raises (self : Kernel) (v : float) (tau : Matrix)
    (p : list (list nat)) (r2l2 : list float) :
  nth_error (params self) 1 = Some v ->
  length r2l2 = nrows tau ->
  forallb (block_in_range (ncols tau) (length (params self))) p = false ->
  raises_at (_compute_dy_dtau_on_partition tau p r2l2) self IndexError.
Proof.
  intros Hv Hlen Hp. unfold _compute_dy_dtau_on_partition.
  eapply bind_pure_raises; [apply (nu_pure self Hv)|].
  match goal with
  | |- raises_at (foldM ?f p ?a) self IndexError =>
      pose proof (@foldM_outcome _ _ f
        (fun acc b => arr_mul acc (map (block_derivative (params self) b) (rows tau)))
        (block_in_range (ncols tau) (length (params self)))
        (fun acc => length acc = nrows tau) IndexError self) as L
  end.
  cbv beta in L. specialize (fun H1 H2 => L H1 H2 p).
  rewrite Hp in L. apply L.
  - intros acc b Hacc Hb. split.
    + eapply pure_bind; [apply (compute_dT_dtau_run self tau b Hb)|].
      apply imul_same_length. rewrite length_map. unfold nrows in Hacc. now rewrite Hacc.
    + unfold arr_mul. rewrite zip_with_length; [exact Hacc|].
      rewrite length_map. exact Hacc.
  - intros acc b _ Hb. apply bind_raises. now apply compute_dT_dtau_raises.
  - unfold scalar_mul. now rewrite !length_map.
Qed.

Lemma incr_at_some (d : nat) (l : list nat) :
  d < length l -> exists l', incr_at d l = Some l' /\ length l' = length l.
Proof.
  revert d. induction l as [|c l IH]; intros d H; cbn in H; [lia|].
  destruct d as [|d]; cbn [incr_at].
  - eexists. split; reflexivity.
  - destruct (IH d ltac:(lia)) as (l' & E & L). rewrite E. cbn [option_map].
    eexists. split; [reflexivity|]. cbn. now rewrite L.
Qed.

Lemma incr_at_none (d : nat) (l : list nat) :
  length l <= d -> incr_at d l = None.
Proof.
  revert d. induction l as [|c l IH]; intros d H; [now destruct d|].
  cbn in H. destruct d as [|d]; [lia|]. cbn [incr_at].
  now rewrite (IH d ltac:(lia)).
Qed.

(** The loop [derivs[d] += 1] raises when a dimension is not a column. *)
Lemma derivs_loop_raises (self : Kernel) (n : nat) (b : list nat) :
  forallb (fun d => Nat.ltb d n) b = false ->
  raises_at
    (foldM (fun derivs d =>
              match incr_at d derivs with
              | Some derivs' => ret derivs'
              | None => raise IndexError
              end)
           b (repeat 0%nat n))
    self IndexError.
Proof.
  intros Hb.
  match goal with
  | |- raises_at (foldM ?f b ?a) self IndexError =>
      pose proof (@foldM_outcome _ _ f
        (fun acc d => match incr_at d acc with Some acc' => acc' | None => acc end)
        (fun d => Nat.ltb d n) (fun acc => length acc = n) IndexError self) as L
  end.
  cbv beta in L. specialize (fun H1 H2 => L H1 H2 b).
  rewrite Hb in L. apply L.
  - intros acc d Hacc Hd. apply Nat.ltb_lt in Hd.
    destruct (@incr_at_some d acc ltac:(lia)) as (acc' & E & Hl).
    rewrite E. split; [apply ret_pure | congruence].
  - intros acc d Hacc Hd. apply Nat.ltb_ge in Hd.
    rewrite (@incr_at_none d acc ltac:(lia)). apply raise_raises.
  - apply repeat_length.
Qed.

(** The loop over the partitions raises when a block of a partition is out
    of range. *)
Lemma partitions_loop_raises (self : Kernel) (v : float) (tau : Matrix)
    (r2l2 : list float) (parts : list (list (list nat))) (acc : list float) :
  nth_error (params self) 1 = Some v ->
  length r2l2 = nrows tau ->
  forallb (forallb (block_in_range (ncols tau) (length (params self)))) parts = false ->
  raises_at
    (foldM (fun dy_dtau p =>
              bind (take_rows (ne0 r2l2) tau) (fun tau_nz =>
              bind (_compute_dy_dtau_on_partition tau_nz p (take_mask (ne0 r2l2) r2l2))
                   (fun term => ret (iadd_mask (ne0 r2l2) dy_dtau term))))
           parts acc)
    self IndexError.
Proof.
  intros Hv Hlen Hp.
  assert (Htake : pure_at (take_rows (ne0 r2l2) tau) self
                    (mkMatrix (ncols tau) (take_mask (ne0 r2l2) (rows tau)))).
  { unfold take_rows, ne0. rewrite length_map, Hlen, Nat.eqb_refl. apply ret_pure. }
  assert (Hnz : length (take_mask (ne0 r2l2) r2l2)
                = nrows (mkMatrix (ncols tau) (take_mask (ne0 r2l2) (rows tau)))).
  { unfold nrows. cbn [rows]. now apply take_mask_length. }
  match goal with
  | |- raises_at (foldM ?f parts acc) self IndexError =>
      pose proof (@foldM_outcome _ _ f
        (fun dy_dtau p =>
           iadd_mask (ne0 r2l2) dy_dtau
             (map (fun rr => partition_term v (params self) p (fst rr) (snd rr))
                  (combine (take_mask (ne0 r2l2) r2l2) (take_mask (ne0 r2l2) (rows tau)))))
        (forallb (block_in_range (ncols tau) (length (params self))))
        (fun _ => True) IndexError self) as L
  end.
  cbv beta in L. specialize (fun H1 H2 => L H1 H2 parts).
  rewrite Hp in L. apply L; [| |exact I].
  - intros a p _ Hok. split; [|exact I].
    eapply pure_bind; [exact Htake|].
    eapply pure_bind; [|apply ret_pure].
    apply (compute_dy_dtau_on_partition_run self
             (mkMatrix (ncols tau) (take_mask (ne0 r2l2) (rows tau))) p
             (take_mask (ne0 r2l2) r2l2) Hv Hnz Hok).
  - intros a p _ Hko.
    eapply bind_pure_raises; [exact Htake|].
    apply bind_raises.
    apply (compute_dy_dtau_on_partition_raises self
             (mkMatrix (ncols tau) (take_mask (ne0 r2l2) (rows tau))) p
             (take_mask (ne0 r2l2) r2l2) Hv Hnz Hko).
Qed.

(** X7: with one entry of [r2l2] per row of [tau], the inner derivative
    returns one value per row when every block of every partition is in
    range and every dimension of [b] is a column of [tau]; otherwise it
    raises [IndexError], and leaves the object and the warnings alone. *)
Theorem inner_derivative_raises_iff_out_of_range (self : Kernel) (v : float)
    (tau : Matrix) (b : list nat) (r2l2 : list float) :
  nth_error (params self) 1 = Some v ->
  length r2l2 = nrows tau ->
  if forallb (forallb (block_in_range (ncols tau) (length (params self))))
             (generate_set_partitions b)
     && forallb (fun d => Nat.ltb d (ncols tau)) b
  then exists dy_dtau,
         result (_compute_dy_dtau tau b r2l2 self) = inr dy_dtau /\
         length dy_dtau = length r2l2
  else raises_at (_compute_dy_dtau tau b r2l2) self IndexError.
Proof.
  intros Hv Hlen.
  destruct (forallb (forallb (block_in_range (ncols tau) (length (params self))))
              (generate_set_partitions b)) eqn:Hp; cbn [andb].
  - destruct (forallb (fun d => Nat.ltb d (ncols tau)) b) eqn:Hb.
    + rewrite (compute_dy_dtau_run self tau b r2l2 Hv Hlen Hp Hb). cbn [result].
      eexists. split; [reflexivity|].
      rewrite length_map, length_combine. unfold nrows in Hlen. lia.
    + unfold _compute_dy_dtau. eapply bind_pure_raises.
      * unfold zeros_like.
        rewrite (map_fst_combine (fun _ => 0) r2l2 (rows tau) Hlen).
        apply (partitions_loop self tau r2l2 _ Hv Hlen Hp).
      * apply bind_raises. now apply derivs_loop_raises.
  - unfold _compute_dy_dtau. apply bind_raises.
    now apply (partitions_loop_raises self tau r2l2 _ _ Hv Hlen).
Qed.


(** X2: the kernel value raises [IndexError] when the hyperparameter vector
    has no entry for [nu]; otherwise it returns one value per entry of
    [r2l2], and a row with [r2l2 != 0] holds
    [2^(1-nu)/Gamma(nu) * y^nu * K_nu(y)] for [y = sqrt(2 nu r2l2)]. *)
Theorem kernel_value_at_regular_rows (self : Kernel) (tau : Matrix) :
  match nth_error (params self) 1 with
  | Some v =>
      exists k,
        result (_compute_k tau self) = inr k /\
        length k = length (r2l2_of (params self) tau) /\
        forall i r,
          nth_error (r2l2_of (params self) tau) i = Some r ->
          (r =? 0) = false ->
          nth_error k i = Some (matern_formula v (scipy_sqrt (2 * v * r)))
  | None => raises_at (_compute_k tau) self IndexError
  end.
Proof.
  destruct (nth_error (params self) 1) as [v|] eqn:E.
  - rewrite (compute_k_run self tau E). cbn [result].
    eexists. split; [reflexivity|]. split; [apply length_map|].
    intros i r Hr H0. rewrite (nth_error_map_some _ _ _ Hr).
    unfold k_row. now rewrite H0.
  - unfold _compute_k, _compute_y, _compute_r2l2.
    apply bind_raises. eapply bind_pure_raises.
    + eapply pure_bind; [apply get_params_pure | apply ret_pure].
    + apply bind_raises. now apply param_raises.
Qed.

End Errors.

(** ** Which calls warn *)

Section Warnings.

Context {lib : Library} {pkg : Package}.

Local Open Scope float_scope.

(** Splits a computation at its binds, loops and case distinctions; the
    leaves are closed from the hint database. *)
Ltac silent_steps :=
  repeat first
    [ apply silent_bind | apply silent_foldM | apply silent_if
    | match goal with |- forall _, _ => intro end
    | match goal with
      | |- silent ?m =>
          match m with
          | context [match ?x with _ => _ end] => destruct x
          end
      end ];
  auto with silent_db.

Lemma silent_param (i : nat) : silent (param i).
Proof. unfold param. silent_steps. Qed.

Lemma silent_nu : silent nu.
Proof. apply silent_param. Qed.

Lemma silent_take_rows (m : list bool) (tau : Matrix) : silent (take_rows m tau).
Proof. unfold take_rows. silent_steps. Qed.

Lemma silent_column (tau : Matrix) (j : nat) : silent (column tau j).
Proof. unfold column. silent_steps. Qed.

Lemma silent_imul (a v : list float) : silent (imul a v).
Proof. unfold imul. silent_steps. Qed.

#[local] Hint Resolve silent_param silent_nu silent_take_rows silent_column
  silent_imul : silent_db.

Lemma silent_compute_r2l2 (tau : Matrix) : silent (_compute_r2l2 tau).
Proof. unfold _compute_r2l2. silent_steps. Qed.

#[local] Hint Resolve silent_compute_r2l2 : silent_db.

Lemma silent_compute_y (tau : Matrix) : silent (_compute_y tau).
Proof. unfold _compute_y. silent_steps. Qed.

#[local] Hint Resolve silent_compute_y : silent_db.

Lemma silent_compute_y_wrapper (args : list float) : silent (_compute_y_wrapper args).
Proof. unfold _compute_y_wrapper. silent_steps. Qed.

Lemma silent_compute_k (tau : Matrix) : silent (_compute_k tau).
Proof. unfold _compute_k. silent_steps. Qed.

Lemma silent_compute_dT_dtau (tau : Matrix) (b : list nat) : silent (_compute_dT_dtau tau b).
Proof. unfold _compute_dT_dtau. silent_steps. Qed.

#[local] Hint Resolve silent_compute_dT_dtau : silent_db.

Lemma silent_compute_dy_dtau_on_partition (tau : Matrix) (p : list (list nat))
    (r2l2 : list float) :
  silent (_compute_dy_dtau_on_partition tau p r2l2).
Proof. unfold _compute_dy_dtau_on_partition. silent_steps. Qed.

#[local] Hint Resolve silent_compute_dy_dtau_on_partition : silent_db.

Lemma silent_compute_dy_dtau (tau : Matrix) (b : list nat) (r2l2 : list float) :
  silent (_compute_dy_dtau tau b r2l2).
Proof. unfold _compute_dy_dtau. silent_steps. Qed.



End Warnings.

(** ** Batches, origin rows and vanishing terms *)

Section Batches.

Context {lib : Library} {pkg : Package}.

Local Open Scope float_scope.

Lemma combine_append (A B : Type) (a1 a2 : list A) (b1 b2 : list B) :
  length a1 = length b1 ->
  combine (a1 ++ a2) (b1 ++ b2) = combine a1 b1 ++ combine a2 b2.
Proof.
  revert b1. induction a1 as [|x a1 IH]; intros [|y b1] H; cbn in *;
    try reflexivity; try discriminate.
  f_equal. apply IH. now injection H.
Qed.

(** X4: the rows of the outer derivative are independent: the derivative of
    a concatenated batch is the concatenation of the derivatives of its
    parts, and the warning does not depend on the batch. *)
Theorem outer_derivative_of_concatenated_batch (self : Kernel) (v : float)
    (y1 y2 : list float) (n : nat) :
  nth_error (params self) 1 = Some v ->
  exists d1 d2,
    result (_compute_dk_dy y1 n self) = inr d1 /\
    result (_compute_dk_dy y2 n self) = inr d2 /\
    result (_compute_dk_dy (y1 ++ y2) n self) = inr (d1 ++ d2) /\
    warned (_compute_dk_dy (y1 ++ y2) n self) = warned (_compute_dk_dy y1 n self).
Proof.
  intros Hv. rewrite !(compute_dk_dy_run self _ n Hv). cbn [result warned].
  eexists. eexists. repeat split. now rewrite map_app.
Qed.

(** X11: the rows of the inner derivative are independent: for batches with
    the same number of columns, the derivative of the concatenation is the
    concatenation of the derivatives. *)
Theorem inner_derivative_of_concatenated_batch (self : Kernel) (v : float) (n : nat)
    (rows1 rows2 : list (list float)) (b : list nat) (r1 r2 : list float) :
  nth_error (params self) 1 = Some v ->
  length r1 = length rows1 ->
  length r2 = length rows2 ->
  forallb (forallb (block_in_range n (length (params self))))
          (generate_set_partitions b) = true ->
  forallb (fun d => Nat.ltb d n) b = true ->
  exists d1 d2,
    result (_compute_dy_dtau (mkMatrix n rows1) b r1 self) = inr d1 /\
    result (_compute_dy_dtau (mkMatrix n rows2) b r2 self) = inr d2 /\
    result (_compute_dy_dtau (mkMatrix n (rows1 ++ rows2)) b (r1 ++ r2) self)
    = inr (d1 ++ d2).
Proof.
  intros Hv H1 H2 Hp Hb.
  rewrite (compute_dy_dtau_run self (mkMatrix n rows1) b r1 Hv H1 Hp Hb).
  rewrite (compute_dy_dtau_run self (mkMatrix n rows2) b r2 Hv H2 Hp Hb).
  assert (H12 : length (r1 ++ r2) = nrows (mkMatrix n (rows1 ++ rows2))).
  { unfold nrows. cbn [rows]. rewrite !length_app. congruence. }
  rewrite (compute_dy_dtau_run self (mkMatrix n (rows1 ++ rows2)) b (r1 ++ r2)
             Hv H12 Hp Hb).
  cbn [result rows ncols]. eexists. eexists. repeat split.
  now rewrite (combine_append r1 r2 rows1 rows2 H1), map_app.
Qed.

(** X9: when [2 nu] is finite and the square root of a zero is a zero, a
    row with [r2l2 == 0] has the radial argument [y == 0]: the rows that the
    kernel value sets to 1 are rows that the outer derivative, applied to
    this [y], treats as the origin. *)
Theorem origin_rows_have_zero_radial_argument (self : Kernel) (v : float)
    (tau : Matrix) (i : nat) (r : float) :
  nth_error (params self) 1 = Some v ->
  is_finite (2 * v) = true ->
  (forall x, (x =? 0) = true -> (scipy_sqrt x =? 0) = true) ->
  nth_error (r2l2_of (params self) tau) i = Some r ->
  (r =? 0) = true ->
  exists y r2l2 yi,
    result (_compute_y tau self) = inr (y, r2l2) /\
    length y = length r2l2 /\
    nth_error r2l2 i = Some r /\
    nth_error y i = Some yi /\
    (yi =? 0) = true.
Proof.
  intros Hv Hfin Hsqrt Hr H0. rewrite (compute_y_run self tau Hv). cbn [result].
  eexists. eexists. eexists. split; [reflexivity|].
  split; [apply length_map|]. split; [exact Hr|].
  split; [apply (nth_error_map_some _ _ _ Hr)|].
  apply Hsqrt. now apply Binary64Order.mul_finite_zero.
Qed.

(** A zero stays a zero through finite factors. *)
Lemma zero_through_finite_blocks (ps : list float) (row : list float)
    (p : list (list nat)) :
  forallb (fun b => is_finite (block_derivative ps b row)) p = true ->
  forall z, (z =? 0) = true ->
  (fold_left (fun acc b => acc * block_derivative ps b row) p z =? 0) = true.
Proof.
  induction p as [|b p IH]; intros Hp z Hz; cbn [fold_left]; [exact Hz|].
  cbn [forallb] in Hp. apply andb_true_iff in Hp. destruct Hp as [Hb Hp].
  apply (IH Hp). now apply Binary64Order.mul_zero_finite.
Qed.

(** X10: a partition with a block of order 3 or more, or with a block that
    names two distinct dimensions, contributes a zero at every row where the
    product of the factors before that block is finite and the derivatives
    of the later blocks are finite. *)
Theorem zero_block_annihilates_partition_term (self : Kernel) (v : float)
    (tau : Matrix) (p1 : list (list nat)) (blk : list nat) (p2 : list (list nat))
    (r2l2 : list float) (i : nat) (r : float) (row : list float) :
  nth_error (params self) 1 = Some v ->
  length r2l2 = nrows tau ->
  forallb (block_in_range (ncols tau) (length (params self))) (p1 ++ blk :: p2) = true ->
  (3 <= length blk)%nat \/ (exists d1 d2, In d1 blk /\ In d2 blk /\ d1 <> d2) ->
  nth_error r2l2 i = Some r ->
  nth_error (rows tau) i = Some row ->
  is_finite (partition_partial v (params self) (length (p1 ++ blk :: p2)) p1 r row) = true ->
  forallb (fun b => is_finite (block_derivative (params self) b row)) p2 = true ->
  exists term o,
    result (_compute_dy_dtau_on_partition tau (p1 ++ blk :: p2) r2l2 self) = inr term /\
    nth_error term i = Some o /\
    (o =? 0) = true.
Proof.
  intros Hv Hlen Hp Hblk Hr Hrow Hfin H2.
  rewrite (compute_dy_dtau_on_partition_run self tau (p1 ++ blk :: p2) r2l2 Hv Hlen Hp).
  cbn [result]. eexists. eexists. split; [reflexivity|].
  split; [apply (nth_error_map_some _ _ _ (nth_error_combine _ _ _ Hr Hrow))|].
  cbn [fst snd]. unfold partition_term. rewrite fold_left_app. cbn [fold_left].
  apply (zero_through_finite_blocks _ _ _ H2).
  assert (Z : block_derivative (params self) blk row = 0).
  { unfold block_derivative.
    assert (C : Nat.leb 3 (length blk) || Nat.ltb 1 (length (unique blk)) = true).
    { apply orb_true_iff. destruct Hblk as [H3|(d1 & d2 & I1 & I2 & Hne)].
      - left. now apply Nat.leb_le.
      - right. apply Nat.ltb_lt.
        apply (@two_members (unique blk) d1 d2); try apply In_unique; assumption. }
    now rewrite C. }
  rewrite Z. now apply Binary64Order.mul_finite_zero.
Qed.

End Batches.

(** ** These properties on the sample kernel *)

Lemma kernel_value_at_regular_rows_witness :
  exists k,
    result (@_compute_k Sample.library Sample.package Sample.tau Sample.kernel) = inr k /\
    length k = 3 /\
    nth_error k 1
    = Some (@matern_formula Sample.library 2 (sqrt (2 * 2 * 10)))%float.
Proof.
  assert (H : exists k,
    result (@_compute_k Sample.library Sample.package Sample.tau Sample.kernel) = inr k /\
    length k = length (r2l2_of (params Sample.kernel) Sample.tau) /\
    forall i r,
      nth_error (r2l2_of (params Sample.kernel) Sample.tau) i = Some r ->
      (r =? 0)%float = false ->
      nth_error k i
      = Some (@matern_formula Sample.library 2 (scipy_sqrt (2 * 2 * r)))%float)
    by exact (@kernel_value_at_regular_rows Sample.library Sample.package
                Sample.kernel Sample.tau).
  destruct H as (k & Hres & Hlen & Hrows).
  exists k. split; [exact Hres|]. split; [exact Hlen|].
  now apply (Hrows 1 10%float).
Defined.

Lemma outer_derivative_of_concatenated_batch_witness :
  exists d1 d2,
    result (@_compute_dk_dy Sample.library [0; 1]%float 4 Sample.kernel) = inr d1 /\
    result (@_compute_dk_dy Sample.library [2]%float 4 Sample.kernel) = inr d2 /\
    result (@_compute_dk_dy Sample.library ([0; 1] ++ [2])%float 4 Sample.kernel)
    = inr (d1 ++ d2) /\
    warned (@_compute_dk_dy Sample.library ([0; 1] ++ [2])%float 4 Sample.kernel)
    = warned (@_compute_dk_dy Sample.library [0; 1]%float 4 Sample.kernel).
Proof.
  apply (@outer_derivative_of_concatenated_batch Sample.library Sample.kernel 2%float
           [0; 1]%float [2]%float 4); reflexivity.
Defined.


(** The multi-index [[0; 1]] is in range for two columns, [[0; 2]] is not. *)
Lemma inner_derivative_raises_iff_out_of_range_witness :
  (exists dy_dtau,
     result (@_compute_dy_dtau Sample.library Sample.package Sample.tau [0; 1]
               [0; 10; 5]%float Sample.kernel) = inr dy_dtau /\
     length dy_dtau = 3) /\
  raises_at (@_compute_dy_dtau Sample.library Sample.package Sample.tau [0; 2]
               [0; 10; 5]%float) Sample.kernel IndexError.
Proof.
  split.
  - exact (@inner_derivative_raises_iff_out_of_range Sample.library Sample.package
             Sample.kernel 2%float Sample.tau [0; 1] [0; 10; 5]%float eq_refl eq_refl).
  - exact (@inner_derivative_raises_iff_out_of_range Sample.library Sample.package
             Sample.kernel 2%float Sample.tau [0; 2] [0; 10; 5]%float eq_refl eq_refl).
Defined.

Lemma inner_derivative_of_concatenated_batch_witness :
  exists d1 d2,
    result (@_compute_dy_dtau Sample.library Sample.package (mkMatrix 2 [[1; 3]%float])
              [0; 1] [10]%float Sample.kernel) = inr d1 /\
    result (@_compute_dy_dtau Sample.library Sample.package
              (mkMatrix 2 [[0; 0]; [2; 1]]%float) [0; 1] [0; 5]%float Sample.kernel)
    = inr d2 /\
    result (@_compute_dy_dtau Sample.library Sample.package
              (mkMatrix 2 ([[1; 3]] ++ [[0; 0]; [2; 1]])%float) [0; 1]
              ([10] ++ [0; 5])%float Sample.kernel)
    = inr (d1 ++ d2).
Proof.
  apply (@inner_derivative_of_concatenated_batch Sample.library Sample.package
           Sample.kernel 2%float 2 [[1; 3]%float] [[0; 0]; [2; 1]]%float [0; 1]
           [10]%float [0; 5]%float); reflexivity.
Defined.

Lemma origin_rows_have_zero_radial_argument_witness :
  exists y r2l2 yi,
    result (@_compute_y Sample.library Sample.package Sample.tau Sample.kernel)
    = inr (y, r2l2) /\
    length y = length r2l2 /\
    nth_error r2l2 0 = Some 0%float /\
    nth_error y 0 = Some yi /\
    (yi =? 0)%float = true.
Proof.
  apply (@origin_rows_have_zero_radial_argument Sample.library Sample.package
           Sample.kernel 2%float Sample.tau 0 0%float);
    try reflexivity.
  exact Binary64Order.sqrt_zero.
Defined.

(** The partition [[1], [0; 1; 0], [0; 0]] at the row [(1, 3)]. *)
Lemma zero_block_annihilates_partition_term_witness :
  exists term o,
    result (@_compute_dy_dtau_on_partition Sample.library Sample.tau
              ([[1]] ++ [0; 1; 0] :: [[0; 0]]) [0; 10; 5]%float Sample.kernel)
    = inr term /\
    nth_error term 1 = Some o /\
    (o =? 0)%float = true.
Proof.
  apply (@zero_block_annihilates_partition_term Sample.library Sample.kernel 2%float
           Sample.tau [[1]] [0; 1; 0] [[0; 0]] [0; 10; 5]%float 1 10%float
           [1; 3]%float); try reflexivity.
  left. cbn. lia.
Defined.
